(** * tinycode (nanocode): the agent loop, the tool registry and the exec engine

    A shallow embedding of [index.ts].  The development follows the file from
    top to bottom: the JavaScript values and the string methods the tools
    rely on, the runtime interface (Bun, fs/promises, the shell), the ten
    tools and [TOOLS], [runTool], [makeSchema], and the REPL of [main] as a
    step function over the events the process can observe.

    Modelling conventions.
    - A JavaScript string is a [string]; a character stands for one code
      unit.
    - A JavaScript number is a [Number]: [NaN], the two infinities, or an
      integer.  Fractions are outside the model (the schema exposes every
      numeric parameter as [integer]).
    - Tool arguments are a JSON object with primitive values, a
      [gmap string JsValue]; a missing key reads as [undefined].
    - Promises are run to completion at their [await]; a rejected promise
      is a thrown [JsError].
    - Terminal output ([console.log], [process.stdout.write]) is not part
      of the state. *)

From Stdlib Require Import ZArith String Ascii List Bool Lia DecimalString.
From Stdlib Require Import Sorted Permutation.
From stdpp Require Import gmap strings list.

Import ListNotations.
Local Open Scope string_scope.
Local Open Scope list_scope.

(** ** Strings *)

Module Str.

Fixpoint drop (n : nat) (s : string) : string :=
  match n, s with
  | S k, String _ s' => drop k s'
  | _, _ => s
  end.

Fixpoint rev_onto (s acc : string) : string :=
  match s with
  | EmptyString => acc
  | String c s' => rev_onto s' (String c acc)
  end.

Definition rev (s : string) : string := rev_onto s "".

Fixpoint chars (s : string) : list string :=
  match s with
  | EmptyString => []
  | String c s' => String c "" :: chars s'
  end.

Fixpoint repeat (c : ascii) (n : nat) : string :=
  match n with
  | O => ""
  | S k => String c (repeat c k)
  end.

(** [cut sep s]: the text before and after the first occurrence of [sep]
    in [s], scanning from the left. *)
Fixpoint cut (sep s : string) : option (string * string) :=
  if String.prefix sep s then Some ("", drop (String.length sep) s)
  else match s with
       | EmptyString => None
       | String c s' =>
           match cut sep s' with
           | Some (a, b) => Some (String c a, b)
           | None => None
           end
       end.

(** [String.prototype.includes]. *)
Definition includes (s sub : string) : bool :=
  match cut sub s with Some _ => true | None => false end.

Fixpoint split_fuel (n : nat) (sep s : string) : list string :=
  match n with
  | O => [s]
  | S k =>
      match cut sep s with
      | None => [s]
      | Some (a, b) => a :: split_fuel k sep b
      end
  end.

(** [String.prototype.split] with a string separator: the pieces between
    successive occurrences, found left to right; an empty separator
    splits into code units.  Every occurrence of a non-empty separator
    consumes at least one character, so the length of [s] bounds the
    number of cuts. *)
Definition split (sep s : string) : list string :=
  match sep with
  | EmptyString => chars s
  | _ => split_fuel (String.length s) sep s
  end.

(** [Array.prototype.join]. *)
Fixpoint join (sep : string) (l : list string) : string :=
  match l with
  | [] => ""
  | [x] => x
  | x :: r => x ++ sep ++ join sep r
  end.

(** [String.prototype.endsWith]. *)
Definition endsWith (s suffix : string) : bool :=
  String.prefix (rev suffix) (rev s).

(** [String.prototype.padStart] with the default filler, a space. *)
Definition padStart (width : nat) (s : string) : string :=
  repeat " "%char (width - String.length s) ++ s.

(** White space of [trim] and [trimEnd], within the one-byte range:
    TAB, LF, VT, FF, CR, SPACE and NBSP. *)
Definition is_space (c : ascii) : bool :=
  let n := nat_of_ascii c in
  (Nat.leb 9 n && Nat.leb n 13) || Nat.eqb n 32 || Nat.eqb n 160.

Fixpoint trimStart (s : string) : string :=
  match s with
  | String c s' => if is_space c then trimStart s' else s
  | EmptyString => ""
  end.

Definition trimEnd (s : string) : string := rev (trimStart (rev s)).
Definition trim (s : string) : string := trimEnd (trimStart s).

Definition nonempty (s : string) : bool :=
  match s with EmptyString => false | _ => true end.

End Str.

(** ** JavaScript values *)

Inductive Number : Type :=
| NaN
| NegInf
| Int (z : Z)
| PosInf.

Inductive JsValue : Type :=
| JUndefined
| JNull
| JBool (b : bool)
| JNum (n : Number)
| JStr (s : string).

(** A thrown [Error]: its [name] and its [message]. *)
Record JsError : Type := mkError { err_name : string; err_message : string }.

Definition Error (msg : string) : JsError := mkError "Error" msg.
Definition TypeError (msg : string) : JsError := mkError "TypeError" msg.

(** [Error.prototype.toString]. *)
Definition Error_toString (e : JsError) : string :=
  match err_name e, err_message e with
  | EmptyString, m => m
  | n, EmptyString => n
  | n, m => n ++ ": " ++ m
  end.

Definition Z_toString (z : Z) : string := NilZero.string_of_int (Z.to_int z).

Module Num.

Definition add (a b : Number) : Number :=
  match a, b with
  | NaN, _ | _, NaN => NaN
  | PosInf, NegInf | NegInf, PosInf => NaN
  | PosInf, _ | _, PosInf => PosInf
  | NegInf, _ | _, NegInf => NegInf
  | Int x, Int y => Int (x + y)
  end.

(** [a <= b]; every comparison with [NaN] is false. *)
Definition leb (a b : Number) : bool :=
  match a, b with
  | NaN, _ | _, NaN => false
  | NegInf, _ => true
  | _, PosInf => true
  | Int x, Int y => (x <=? y)%Z
  | _, _ => false
  end.

(** [Math.max] and [Math.min] of two numbers: [NaN] is contagious. *)
Definition max (a b : Number) : Number :=
  match a, b with
  | NaN, _ | _, NaN => NaN
  | _, _ => if leb a b then b else a
  end.

Definition min (a b : Number) : Number :=
  match a, b with
  | NaN, _ | _, NaN => NaN
  | _, _ => if leb a b then a else b
  end.

End Num.

(** ** Configuration (lines 6-13)

    The constants read from the environment when the process starts. *)

Record Config : Type := mkConfig {
  API_URL : string;
  MODEL : string;
  GREP_LIMIT : Number;
  MAX_FILE_SIZE : Number;
  IS_WINDOWS : bool
}.

Definition IGNORE_PATTERNS : list string :=
  [".git"; "node_modules"; "dist"; "build"; ".next"; "coverage"; ".cache"].

Definition SHELL (cfg : Config) : list string :=
  if IS_WINDOWS cfg then ["cmd"; "/c"] else ["sh"; "-c"].

(** ** The runtime

    What the program asks of Bun, of [fs/promises] and of the operating
    system.  [World] is everything outside the process that a tool can
    observe or change.  Reads are functions of the world; writes return the
    world they leave behind, and an error when they throw. *)

Record Stat : Type := mkStat { isDirectory : bool; mtime : option Z }.

(** The entries [readdir] lists for a directory, and for each entry that is
    itself a directory what [readdir] lists for it in turn. *)
Inductive DirListing : Type :=
| Unreadable (e : JsError)
| Entries (l : list Dirent)
with Dirent : Type :=
| FileEntry (name : string)
| DirEntry (name : string) (sub : DirListing).

Inductive Channel : Type := Stdout | Stderr.

(** One settled [reader.read()] on an output channel of a subprocess. *)
Inductive ReadEvent : Type :=
| Data (ch : Channel) (value : list Byte.byte)
| Failed (ch : Channel).

(** A subprocess, as [exec] observes it from [Bun.spawn] to
    [clearTimeout]: the reads on its two channels in the order they settle,
    up to the close of both; whether the timer fired in that time; and
    [proc.exitCode] ([None] for [null]).  A process that never closes its
    channels gives no run. *)
Record ProcRun : Type := mkProcRun {
  reads : list ReadEvent;
  timer_fired : bool;
  exitCode : option Z
}.

Class Runtime : Type := {
  World : Type;
  (** [Number::toString] of an integer of magnitude 1e21 or more. *)
  exponent_text : Z -> string;
  (** [ToNumber] of a string. *)
  StringToNumber : string -> Number;
  (** The message of the [TypeError] raised by calling [undefined]. *)
  not_a_function : string;
  (** [join(directory, name)] of [path]; it throws when [directory] is not
      a string. *)
  path_join : JsValue -> string -> JsError + string;
  (** [await Bun.file(path).text()] *)
  Bun_file_text : World -> JsValue -> JsError + string;
  (** [await Bun.file(path).stat()], [None] for a falsy result. *)
  Bun_file_stat : World -> string -> JsError + option Stat;
  (** [await Bun.write(path, data)] *)
  Bun_write : World -> JsValue -> JsValue -> World * option JsError;
  (** [new Glob(pattern).scan({cwd, absolute: true})]: the paths it yields
      and the error that ends the iteration, if one does. *)
  Glob_scan : World -> JsValue -> JsValue -> list string * option JsError;
  (** [new RegExp(pattern)] and [regex.test(line)]. *)
  Regex : Type;
  RegExp_new : JsValue -> JsError + Regex;
  RegExp_test : Regex -> string -> bool;
  fs_stat : World -> JsValue -> JsError + Stat;
  fs_readdir : World -> JsValue -> DirListing;
  fs_rm : World -> JsValue -> bool -> World * option JsError;
  fs_unlink : World -> JsValue -> World * option JsError;
  fs_rename : World -> JsValue -> JsValue -> World * option JsError;
  fs_cp : World -> JsValue -> JsValue -> bool -> World * option JsError;
  fs_copyFile : World -> JsValue -> JsValue -> World * option JsError;
  (** [Bun.spawn(argv, ...)] followed to the end of the run, for the
      delay the timer was armed with. *)
  Bun_spawn : World -> list JsValue -> Number -> World * (JsError + ProcRun);
  (** [new TextDecoder()] and [decoder.decode(value, {stream: true})]. *)
  Decoder : Type;
  TextDecoder_new : Decoder;
  TextDecoder_decode : Decoder -> list Byte.byte -> Decoder * string
}.

(** ** Completions and the effect monad *)

Inductive Completion (A : Type) : Type :=
| Return (a : A)
| Throw (e : JsError).
Arguments Return {A} a.
Arguments Throw {A} e.

Section Effects.
Context `{Runtime}.

Definition M (A : Type) : Type := World -> World * Completion A.

Definition ret {A} (a : A) : M A := fun w => (w, Return a).
Definition throw {A} (e : JsError) : M A := fun w => (w, Throw e).

Definition bind {A B} (m : M A) (k : A -> M B) : M B :=
  fun w =>
    match m w with
    | (w', Return a) => k a w'
    | (w', Throw e) => (w', Throw e)
    end.

(** [try { m } catch (error) { handler(error) }] *)
Definition try_catch {A} (m : M A) (handler : JsError -> M A) : M A :=
  fun w =>
    match m w with
    | (w', Return a) => (w', Return a)
    | (w', Throw e) => handler e w'
    end.

(** A read of the world that may throw. *)
Definition observe {A} (f : World -> JsError + A) : M A :=
  fun w => match f w with inl e => (w, Throw e) | inr a => (w, Return a) end.

(** A write to the world that may throw. *)
Definition perform (f : World -> World * option JsError) : M unit :=
  fun w => match f w with
           | (w', Some e) => (w', Throw e)
           | (w', None) => (w', Return tt)
           end.

End Effects.

Notation "'let*' x ':=' m 'in' k" := (bind m (fun x => k))
  (at level 10, x name, m at level 100, k at level 200).

(** ** Coercions and operators *)

Section Coercions.
Context `{Runtime}.

Definition Number_toString (n : Number) : string :=
  match n with
  | NaN => "NaN"
  | PosInf => "Infinity"
  | NegInf => "-Infinity"
  | Int z => if (Z.abs z <? 10 ^ 21)%Z then Z_toString z else exponent_text z
  end.

Definition ToString (v : JsValue) : string :=
  match v with
  | JUndefined => "undefined"
  | JNull => "null"
  | JBool true => "true"
  | JBool false => "false"
  | JNum n => Number_toString n
  | JStr s => s
  end.

Definition ToNumber (v : JsValue) : Number :=
  match v with
  | JUndefined => NaN
  | JNull => Int 0
  | JBool true => Int 1
  | JBool false => Int 0
  | JNum n => n
  | JStr s => StringToNumber s
  end.

Definition ToBoolean (v : JsValue) : bool :=
  match v with
  | JUndefined | JNull => false
  | JBool b => b
  | JNum NaN => false
  | JNum (Int z) => negb (z =? 0)%Z
  | JNum _ => true
  | JStr s => Str.nonempty s
  end.

(** [a || b], [a ?? b] and [a + b]. *)
Definition js_or (a b : JsValue) : JsValue := if ToBoolean a then a else b.

Definition js_nullish (a b : JsValue) : JsValue :=
  match a with JUndefined | JNull => b | _ => a end.

Definition js_add (a b : JsValue) : JsValue :=
  match a, b with
  | JStr _, _ | _, JStr _ => JStr (ToString a ++ ToString b)
  | _, _ => JNum (Num.add (ToNumber a) (ToNumber b))
  end.

Definition Math_max (a b : JsValue) : Number := Num.max (ToNumber a) (ToNumber b).
Definition Math_min (a b : JsValue) : Number := Num.min (ToNumber a) (ToNumber b).

(** The index an argument of [Array.prototype.slice] denotes in an array
    of [len] elements. *)
Definition slice_index (len : nat) (v : JsValue) : nat :=
  match ToNumber v with
  | NaN => 0
  | NegInf => 0
  | PosInf => len
  | Int z => if (z <? 0)%Z then Z.to_nat (Z.max (Z.of_nat len + z) 0)
             else Nat.min (Z.to_nat z) len
  end.

Definition Array_slice {A} (l : list A) (start finish : JsValue) : list A :=
  let k := slice_index (length l) start in
  let final := match finish with
               | JUndefined => length l
               | _ => slice_index (length l) finish
               end in
  firstn (final - k) (skipn k l).

(** [GetSubstitution] for a string pattern (no captures): [$$], [$&],
    the text before the match and the text after it are the only patterns
    expanded in the replacement. *)
Fixpoint GetSubstitution (before matched after template : string) : string :=
  match template with
  | EmptyString => ""
  | String c tl =>
      if Ascii.eqb c "$" then
        match tl with
        | String d rest =>
            if Ascii.eqb d "$" then String "$" (GetSubstitution before matched after rest)
            else if Ascii.eqb d "&" then matched ++ GetSubstitution before matched after rest
            else if Ascii.eqb d "`" then before ++ GetSubstitution before matched after rest
            else if Ascii.eqb d "'" then after ++ GetSubstitution before matched after rest
            else String c (GetSubstitution before matched after tl)
        | EmptyString => String c ""
        end
      else String c (GetSubstitution before matched after tl)
  end.

(** [text.replace(search, replacement)] with a string pattern. *)
Definition String_replace (text search replacement : string) : string :=
  match Str.cut search text with
  | None => text
  | Some (a, b) => a ++ GetSubstitution a search b replacement ++ b
  end.

Fixpoint replaceAll_fuel (n : nat) (search replacement before s : string) : string :=
  match n with
  | O => s
  | S k =>
      match Str.cut search s with
      | None => s
      | Some (a, b) =>
          a ++ GetSubstitution (before ++ a) search b replacement
            ++ replaceAll_fuel k search replacement (before ++ a ++ search) b
      end
  end.

Fixpoint replaceAll_empty (replacement before s : string) : string :=
  GetSubstitution before "" s replacement ++
  match s with
  | EmptyString => ""
  | String c s' => String c (replaceAll_empty replacement (before ++ String c "") s')
  end.

(** [text.replaceAll(search, replacement)] with a string pattern. *)
Definition String_replaceAll (text search replacement : string) : string :=
  match search with
  | EmptyString => replaceAll_empty replacement "" text
  | _ => replaceAll_fuel (String.length text) search replacement "" text
  end.

(** [text.split(separator)] where the separator is any value. *)
Definition String_split (text : string) (separator : JsValue) : list string :=
  match separator with
  | JUndefined => [text]
  | _ => Str.split (ToString separator) text
  end.

End Coercions.

(** ** The tools (lines 48-212)

    The handler stored under the key [k] of [TOOLS] is named [k_tool]. *)

Definition LF : string := String (ascii_of_nat 10) "".

Definition ToolArgs : Type := gmap string JsValue.

(** [args.key] *)
Definition arg (args : gmap string JsValue) (key : string) : JsValue :=
  match args !! key with Some v => v | None => JUndefined end.

Definition shouldIgnore (filepath : string) : bool :=
  existsb (fun pattern =>
             Str.includes filepath ("/" ++ pattern ++ "/")%string
             || Str.includes filepath ("\" ++ pattern ++ "\")%string)
          IGNORE_PATTERNS.

Section Tools.
Context `{Runtime}.
Variable cfg : Config.

Definition Handler : Type := gmap string JsValue -> M string.

Definition getPath (args : gmap string JsValue) : M JsValue :=
  let path := js_or (arg args "path") (arg args "file_path") in
  if negb (ToBoolean path) then throw (Error "path parameter is required")
  else ret path.

Definition read_tool : Handler := fun args =>
  let* path := getPath args in
  let* text := observe (fun w => Bun_file_text w path) in
  let lines := Str.split LF text in
  let offset := js_nullish (arg args "offset") (JNum (Int 0)) in
  let selected :=
    if ToBoolean (arg args "limit")
    then Array_slice lines offset (js_add offset (arg args "limit"))
    else Array_slice lines offset JUndefined in
  ret (Str.join LF
         (imap (fun index line =>
                  (Str.padStart 4
                     (ToString (js_add (js_add offset (JNum (Int (Z.of_nat index))))
                                       (JNum (Int 1))))
                   ++ "| " ++ line)%string)
               selected)).

Definition write_tool : Handler := fun args =>
  let* path := getPath args in
  let* _ := perform (fun w => Bun_write w path (arg args "content")) in
  ret "ok".

Definition edit_tool : Handler := fun args =>
  let* path := getPath args in
  let* text := observe (fun w => Bun_file_text w path) in
  let oldString := arg args "old" in
  if negb (Str.includes text (ToString oldString)) then ret "error: old_string not found"
  else
    let count := (Z.of_nat (length (String_split text oldString)) - 1)%Z in
    if negb (ToBoolean (arg args "all")) && (1 <? count)%Z
    then ret ("error: old_string appears " ++ Number_toString (Int count)
                ++ " times, use all=true")%string
    else
      let* path' := getPath args in
      let* _ := perform (fun w =>
                  Bun_write w path'
                    (JStr (if ToBoolean (arg args "all")
                           then String_replaceAll text (ToString oldString)
                                  (ToString (arg args "new"))
                           else String_replace text (ToString oldString)
                                  (ToString (arg args "new"))))) in
      ret "ok".

(** [files.sort((a, b) => b.mtime - a.mtime)]: newest first, entries of
    equal age in the order they were found. *)
Fixpoint insert_by_mtime (x : string * Z) (l : list (string * Z)) : list (string * Z) :=
  match l with
  | [] => [x]
  | y :: r => if (snd y <=? snd x)%Z then x :: l else y :: insert_by_mtime x r
  end.

Definition sort_by_mtime (l : list (string * Z)) : list (string * Z) :=
  fold_right insert_by_mtime [] l.

Definition or_else (s fallback : string) : string :=
  if Str.nonempty s then s else fallback.

Definition glob_entry (w : World) (filepath : string) : string * Z :=
  match Bun_file_stat w filepath with
  | inr (Some st) => (filepath, match mtime st with Some t => t | None => 0%Z end)
  | inr None => (filepath, 0%Z)
  | inl _ => (filepath, 0%Z)
  end.

Definition glob_tool : Handler := fun args w =>
  let '(found, failure) :=
    Glob_scan w (arg args "pattern") (js_nullish (arg args "path") (JStr ".")) in
  let files := map (glob_entry w) (List.filter (fun p => negb (shouldIgnore p)) found) in
  match failure with
  | Some e => (w, Throw e)
  | None => (w, Return (or_else (Str.join LF (map fst (sort_by_mtime files))) "none"))
  end.

(** [hits.length >= GREP_LIMIT] *)
Definition limit_reached (hits : list string) : bool :=
  Num.leb (GREP_LIMIT cfg) (Int (Z.of_nat (length hits))).

Fixpoint grep_lines (regex : Regex) (filepath : string) (lines : list string)
         (index : nat) (hits : list string) : list string :=
  match lines with
  | [] => hits
  | line :: rest =>
      if RegExp_test regex line then
        let hits' := hits ++ [(filepath ++ ":" ++ Number_toString (Int (Z.of_nat index + 1))
                                 ++ ":" ++ Str.trimEnd line)%string] in
        if limit_reached hits' then hits'
        else grep_lines regex filepath rest (S index) hits'
      else grep_lines regex filepath rest (S index) hits
  end.

Fixpoint grep_files (w : World) (regex : Regex) (found : list string)
         (failure : option JsError) (hits : list string) : Completion (list string) :=
  match found with
  | [] => match failure with Some e => Throw e | None => Return hits end
  | filepath :: rest =>
      if shouldIgnore filepath then grep_files w regex rest failure hits
      else
        match Bun_file_stat w filepath with
        | inr (Some st) =>
            if isDirectory st then grep_files w regex rest failure hits
            else
              match Bun_file_text w (JStr filepath) with
              | inr text =>
                  let hits' := grep_lines regex filepath (Str.split LF text) 0 hits in
                  if limit_reached hits' then Return hits'
                  else grep_files w regex rest failure hits'
              | inl _ => grep_files w regex rest failure hits
              end
        | _ => grep_files w regex rest failure hits
        end
  end.

Definition grep_tool : Handler := fun args =>
  let* regex := observe (fun _ => RegExp_new (arg args "pattern")) in
  let* hits := (fun w =>
                  let '(found, failure) :=
                    Glob_scan w (JStr "**/*") (js_nullish (arg args "path") (JStr ".")) in
                  (w, grep_files w regex found failure [])) in
  ret (or_else (Str.join LF hits) "none").

(** [Math.min(Math.max(args.timeout, 1000), 300000)] *)
Definition timeoutMs (args : gmap string JsValue) : Number :=
  Num.min (Math_max (arg args "timeout") (JNum (Int 1000))) (Int 300000).

Definition prefix_of (ch : Channel) : string :=
  match ch with Stdout => "[stdout] " | Stderr => "[stderr] " end.

(** The lines one chunk of decoded text adds to [output]. *)
Definition chunk_lines (prefix text : string) : list string :=
  map (fun line => (prefix ++ line)%string) (List.filter (fun l => Str.nonempty l) (Str.split LF text)).

(** One [readStream] loop: its decoder, and whether the loop has ended
    because a read was rejected. *)
Record Reader : Type := mkReader { decoder : Decoder; ended : bool }.

(** The two [readStream] loops, driven by the reads in the order they
    settle; [output] is shared. *)
Fixpoint readStreams (events : list ReadEvent) (out err : Reader)
         (output : list string) : list string :=
  match events with
  | [] => output
  | Failed Stdout :: rest => readStreams rest (mkReader (decoder out) true) err output
  | Failed Stderr :: rest => readStreams rest out (mkReader (decoder err) true) output
  | Data Stdout value :: rest =>
      if ended out then readStreams rest out err output
      else
        let '(d, text) := TextDecoder_decode (decoder out) value in
        readStreams rest (mkReader d false) err
          (output ++ chunk_lines (prefix_of Stdout) text)
  | Data Stderr value :: rest =>
      if ended err then readStreams rest out err output
      else
        let '(d, text) := TextDecoder_decode (decoder err) value in
        readStreams rest out (mkReader d false)
          (output ++ chunk_lines (prefix_of Stderr) text)
  end.

Definition exitCode_text (code : option Z) : string :=
  match code with Some z => Number_toString (Int z) | None => "null" end.

(** Lines 159-160. *)
Definition exec_result (output : list string) (killed : bool) (bound : Number)
           (code : option Z) : string :=
  let result := or_else (Str.join LF output) "(no output)" in
  if killed then (result ++ LF ++ "[TIMEOUT after " ++ Number_toString bound ++ "ms]")%string
  else (result ++ LF ++ "[exit: " ++ exitCode_text code ++ "]")%string.

Definition exec_tool : Handler := fun args =>
  let bound := timeoutMs args in
  let* proc := (fun w =>
                  match Bun_spawn w (map JStr (SHELL cfg) ++ [arg args "command"]) bound with
                  | (w', inl e) => (w', Throw e)
                  | (w', inr run) => (w', Return run)
                  end) in
  let fresh := mkReader TextDecoder_new false in
  let output := readStreams (reads proc) fresh fresh [] in
  ret (exec_result output (timer_fired proc) bound (exitCode proc)).

(** [listDir]: the recursion follows what [readdir] lists. *)
Fixpoint listDir (recursive : bool) (listing : DirListing) (directory : JsValue)
         (prefix : string) {struct listing} : Completion (list string) :=
  match listing with
  | Unreadable e => Throw e
  | Entries l =>
      (fix entries (l : list Dirent) : Completion (list string) :=
         match l with
         | [] => Return []
         | FileEntry name :: rest =>
             match path_join directory name with
             | inl e => Throw e
             | inr _ =>
                 match entries rest with
                 | Throw e => Throw e
                 | Return results => Return ((prefix ++ name)%string :: results)
                 end
             end
         | DirEntry name sub :: rest =>
             match path_join directory name with
             | inl e => Throw e
             | inr fullPath =>
                 if shouldIgnore fullPath then entries rest
                 else
                   match (if recursive
                          then listDir recursive sub (JStr fullPath) (prefix ++ "  ")%string
                          else Return []) with
                   | Throw e => Throw e
                   | Return below =>
                       match entries rest with
                       | Throw e => Throw e
                       | Return results =>
                           Return ((prefix ++ name ++ "/")%string :: below ++ results)
                       end
                   end
             end
         end) l
  end.

(** [catch (error) { return `error: ${error.message}` }] *)
Definition error_message {A} (_ : A) (e : JsError) : M string :=
  ret ("error: " ++ err_message e)%string.

Definition list_tool : Handler := fun args =>
  try_catch
    (let* path := getPath args in
     let* results := (fun w => (w, listDir (ToBoolean (arg args "recursive"))
                                     (fs_readdir w path) path "")) in
     ret (or_else (Str.join LF results) "(empty)"))
    (error_message tt).

Definition delete_tool : Handler := fun args =>
  try_catch
    (let* filepath := getPath args in
     let* fileStat := observe (fun w => fs_stat w filepath) in
     let* _ := perform (fun w =>
                 if isDirectory fileStat
                 then fs_rm w filepath (ToBoolean (arg args "recursive"))
                 else fs_unlink w filepath) in
     ret ("Deleted: " ++ ToString filepath)%string)
    (error_message tt).

Definition move_tool : Handler := fun args =>
  try_catch
    (let* _ := perform (fun w => fs_rename w (arg args "from") (arg args "to")) in
     ret ("Moved: " ++ ToString (arg args "from") ++ " -> " ++ ToString (arg args "to"))%string)
    (error_message tt).

Definition copy_tool : Handler := fun args =>
  try_catch
    (let* fileStat := observe (fun w => fs_stat w (arg args "from")) in
     let* _ := perform (fun w =>
                 if isDirectory fileStat
                 then fs_cp w (arg args "from") (arg args "to")
                        (ToBoolean (arg args "recursive"))
                 else fs_copyFile w (arg args "from") (arg args "to")) in
     ret ("Copied: " ++ ToString (arg args "from") ++ " -> " ++ ToString (arg args "to"))%string)
    (error_message tt).

(** *** The registry (line 56) *)

Record Tool : Type := mkTool {
  description : string;
  params : list (string * string);
  handler : Handler
}.

Definition TOOLS : list (string * Tool) :=
  [ ("read", mkTool "Read file with line numbers"
               [("path", "string"); ("offset", "number?"); ("limit", "number?")] read_tool);
    ("write", mkTool "Write content to file"
                [("path", "string"); ("content", "string")] write_tool);
    ("edit", mkTool "Replace old with new in file"
               [("path", "string"); ("old", "string"); ("new", "string"); ("all", "boolean?")]
               edit_tool);
    ("glob", mkTool "Find files by pattern"
               [("pattern", "string"); ("path", "string?")] glob_tool);
    ("grep", mkTool "Search files for regex"
               [("pattern", "string"); ("path", "string?")] grep_tool);
    ("exec", mkTool "Execute shell command with live output and timeout"
               [("command", "string"); ("timeout", "number")] exec_tool);
    ("list", mkTool "List directory"
               [("path", "string"); ("recursive", "boolean?")] list_tool);
    ("delete", mkTool "Delete file/directory"
                 [("path", "string"); ("recursive", "boolean?")] delete_tool);
    ("move", mkTool "Move or rename"
               [("from", "string"); ("to", "string")] move_tool);
    ("copy", mkTool "Copy file/directory"
               [("from", "string"); ("to", "string"); ("recursive", "boolean?")] copy_tool) ].

(** The properties every object literal inherits from [Object.prototype]. *)
Definition Object_prototype : list string :=
  ["constructor"; "__proto__"; "hasOwnProperty"; "isPrototypeOf";
   "propertyIsEnumerable"; "toLocaleString"; "toString"; "valueOf";
   "__defineGetter__"; "__defineSetter__"; "__lookupGetter__"; "__lookupSetter__"].

(** What [TOOLS[name]] evaluates to. *)
Inductive Property : Type :=
| Own (tool : Tool)
| Inherited
| Absent.

Fixpoint own_property (table : list (string * Tool)) (name : string) : option Tool :=
  match table with
  | [] => None
  | (key, tool) :: rest => if String.eqb key name then Some tool else own_property rest name
  end.

Definition TOOLS_get (name : string) : Property :=
  match own_property TOOLS name with
  | Some tool => Own tool
  | None => if existsb (String.eqb name) Object_prototype then Inherited else Absent
  end.

(** *** [runTool] (lines 214-220) *)
Definition runTool (name : string) (args : gmap string JsValue) : M string :=
  try_catch
    (match TOOLS_get name with
     | Own tool => handler tool args
     | Inherited => throw (TypeError not_a_function)
     | Absent => ret ("error: unknown tool " ++ name)%string
     end)
    (fun error => ret ("error: " ++ Error_toString error)%string).

(** *** [makeSchema] (lines 222-233) *)

Record InputSchema : Type := mkInputSchema {
  schema_type : string;
  properties : list (string * string);
  required : list string
}.

Record Schema : Type := mkSchema {
  schema_name : string;
  schema_description : string;
  input_schema : InputSchema
}.

Definition exposed_type (value : string) : string :=
  if String.eqb (String_replace value "?" "") "number" then "integer"
  else String_replace value "?" "".

Definition makeSchema : list Schema :=
  map (fun '(name, tool) =>
         mkSchema name (description tool)
           (mkInputSchema "object"
              (map (fun '(key, value) => (key, exposed_type value)) (params tool))
              (map fst (List.filter (fun '(_, value) => negb (Str.endsWith value "?"))
                               (params tool)))))
      TOOLS.

End Tools.

(** ** Conversation types (lines 20-46) *)

Record ContentBlock : Type := mkBlock {
  block_type : string;
  block_text : option string;
  block_id : option string;
  block_name : option string;
  block_input : option (gmap string JsValue)
}.

Record ToolResult : Type := mkToolResult {
  result_type : string;
  tool_use_id : string;
  result_content : string
}.

Inductive Content : Type :=
| Text (s : string)
| Blocks (l : list ContentBlock)
| Results (l : list ToolResult).

Record Message : Type := mkMessage { role : string; content : Content }.

Record Usage : Type := mkUsage { input_tokens : Z; output_tokens : Z }.

Record APIResponse : Type := mkResponse {
  response_content : option (list ContentBlock);
  response_usage : option Usage
}.

(** [block.type === "tool_use" && block.name && block.input && block.id] *)
Definition truthy (s : option string) : bool :=
  match s with Some t => Str.nonempty t | None => false end.

Definition dispatched (block : ContentBlock) : bool :=
  String.eqb (block_type block) "tool_use" && truthy (block_name block)
  && (match block_input block with Some _ => true | None => false end)
  && truthy (block_id block).

(** ** The REPL of [main] (lines 266-345)

    [main] is suspended at an [await] whenever something else can happen.
    A [Phase] names the point it is suspended at; an [Event] is what the
    event loop delivers next.  An event that the phase cannot take (a line
    while a request is running, a settlement with no call pending) leaves
    the state as it is.  A dispatch runs from its [await runTool] to the
    result in one step; a signal that arrives meanwhile is the next
    event. *)

Inductive Phase : Type :=
| Idle          (** in [for await (const line of console)], waiting for a line *)
| LoopTest      (** about to evaluate [while (!stopRequested)] *)
| AwaitingAPI   (** in [await callAPI(messages, systemPrompt)] *)
| Dispatching (blocks rest : list ContentBlock) (toolResults : list ToolResult)
                (** in [for (const block of blocks)], [rest] still to visit *)
| Exited.

Inductive Event : Type :=
| Line (line : string)                    (** the console yields a line *)
| SIGINT
| SIGTERM
| Settled (r : Completion APIResponse)    (** the pending [callAPI] settles *)
| Resume.                                 (** [main] runs on to its next [await] *)

Section Main.
Context `{Runtime}.
Variable cfg : Config.

Record State : Type := mkState {
  world : World;
  messages : list Message;
  totalInputTokens : Z;
  totalOutputTokens : Z;
  stopRequested : bool;
  phase : Phase;
  (** The conversations handed to [callAPI] so far, the latest first. *)
  sent : list (list Message)
}.

Definition initial (w : World) : State := mkState w [] 0 0 false Idle [].

Definition set_phase (p : Phase) (s : State) : State :=
  mkState (world s) (messages s) (totalInputTokens s) (totalOutputTokens s)
          (stopRequested s) p (sent s).

Definition set_stop (b : bool) (s : State) : State :=
  mkState (world s) (messages s) (totalInputTokens s) (totalOutputTokens s)
          b (phase s) (sent s).

Definition push (m : Message) (s : State) : State :=
  mkState (world s) (messages s ++ [m]) (totalInputTokens s) (totalOutputTokens s)
          (stopRequested s) (phase s) (sent s).

(** Lines 280-304. *)
Definition on_line (line : string) (s : State) : State :=
  let userInput := Str.trim line in
  if String.eqb userInput "/q" || String.eqb userInput "exit" then set_phase Exited s
  else if String.eqb userInput "/c" then
    mkState (world s) [] 0 0 (stopRequested s) Idle (sent s)
  else if negb (Str.nonempty userInput) then s
  else set_phase LoopTest (set_stop false (push (mkMessage "user" (Text userInput)) s)).

(** Lines 306-308: the loop test and the call of the transport. *)
Definition on_loop_test (s : State) : State :=
  if stopRequested s then set_phase Idle s
  else mkState (world s) (messages s) (totalInputTokens s) (totalOutputTokens s)
               (stopRequested s) AwaitingAPI (messages s :: sent s).

(** Lines 308-316 and the [catch] of line 338. *)
Definition on_settled (r : Completion APIResponse) (s : State) : State :=
  match r with
  | Throw _ => set_phase Idle s
  | Return response =>
      let blocks := match response_content response with Some l => l | None => [] end in
      let '(tin, tout) :=
        match response_usage response with
        | Some usage => (totalInputTokens s + input_tokens usage,
                         totalOutputTokens s + output_tokens usage)%Z
        | None => (totalInputTokens s, totalOutputTokens s)
        end in
      mkState (world s) (messages s) tin tout (stopRequested s)
              (Dispatching blocks blocks []) (sent s)
  end.

(** Lines 317-331: one block of the response, or the end of the round. *)
Definition on_block (blocks rest : list ContentBlock) (toolResults : list ToolResult)
           (s : State) : State :=
  match rest with
  | block :: rest' =>
      if dispatched block then
        match block_name block, block_input block, block_id block with
        | Some name, Some input, Some id =>
            match runTool cfg name input (world s) with
            | (w, Return result) =>
                mkState w (messages s) (totalInputTokens s) (totalOutputTokens s)
                        (stopRequested s)
                        (Dispatching blocks rest'
                           (toolResults ++ [mkToolResult "tool_result" id result]))
                        (sent s)
            | (w, Throw _) =>
                mkState w (messages s) (totalInputTokens s) (totalOutputTokens s)
                        (stopRequested s) Idle (sent s)
            end
        | _, _, _ => set_phase (Dispatching blocks rest' toolResults) s
        end
      else set_phase (Dispatching blocks rest' toolResults) s
  | [] =>
      let s' := push (mkMessage "assistant" (Blocks blocks)) s in
      match toolResults with
      | [] => set_phase Idle s'
      | _ => set_phase LoopTest (push (mkMessage "user" (Results toolResults)) s')
      end
  end.

Definition step (s : State) (e : Event) : State :=
  match phase s, e with
  | Exited, _ => s
  | _, SIGTERM => set_phase Exited s
  | _, SIGINT => set_stop true s
  | Idle, Line line => on_line line s
  | LoopTest, Resume => on_loop_test s
  | AwaitingAPI, Settled r => on_settled r s
  | Dispatching blocks rest toolResults, Resume => on_block blocks rest toolResults s
  | _, _ => s
  end.

Definition run (s : State) (events : list Event) : State := fold_left step events s.

(** *** Reading a conversation *)

Definition invocations_of (m : Message) : list ContentBlock :=
  match content m with
  | Blocks l => List.filter (fun b => String.eqb (block_type b) "tool_use") l
  | _ => []
  end.

Definition dispatched_of (m : Message) : list ContentBlock :=
  match content m with
  | Blocks l => List.filter dispatched l
  | _ => []
  end.

Definition results_of (m : Message) : list ToolResult :=
  match content m with
  | Results l => l
  | _ => []
  end.

Definition invocations (conversation : list Message) : list ContentBlock :=
  flat_map invocations_of conversation.

Definition dispatched_invocations (conversation : list Message) : list ContentBlock :=
  flat_map dispatched_of conversation.

Definition results (conversation : list Message) : list ToolResult :=
  flat_map results_of conversation.

End Main.

(** ** A runtime to run the model on

    A small world: text files by path and scripted subprocesses by command
    line.  It has no directories; patterns match literally. *)

Module Sim.

Record world : Type := mkWorld {
  files : gmap string string;
  commands : gmap string ProcRun
}.

Definition ENOENT (path : string) : JsError :=
  Error ("ENOENT: no such file or directory, open '" ++ path ++ "'").

Definition bad_path : JsError := TypeError "The path argument must be of type string".

Definition text_of (w : world) (path : JsValue) : JsError + string :=
  match path with
  | JStr p => match files w !! p with Some t => inr t | None => inl (ENOENT p) end
  | _ => inl bad_path
  end.

Definition stat_of (w : world) (p : string) : JsError + Stat :=
  match files w !! p with
  | Some _ => inr (mkStat false (Some 0%Z))
  | None => inl (ENOENT p)
  end.

Definition write_to (w : world) (path data : JsValue) : world * option JsError :=
  match path, data with
  | JStr p, JStr d => (mkWorld (<[p := d]> (files w)) (commands w), None)
  | _, _ => (w, Some bad_path)
  end.

Definition remove (w : world) (path : JsValue) : world * option JsError :=
  match path with
  | JStr p =>
      match files w !! p with
      | Some _ => (mkWorld (base.delete p (files w)) (commands w), None)
      | None => (w, Some (ENOENT p))
      end
  | _ => (w, Some bad_path)
  end.

Definition duplicate (w : world) (from to : JsValue) : world * option JsError :=
  match from, to with
  | JStr p, JStr q =>
      match files w !! p with
      | Some t => (mkWorld (<[q := t]> (files w)) (commands w), None)
      | None => (w, Some (ENOENT p))
      end
  | _, _ => (w, Some bad_path)
  end.

Definition rename (w : world) (from to : JsValue) : world * option JsError :=
  match duplicate w from to with
  | (w', None) => remove w' from
  | failure => failure
  end.

Definition spawn (w : world) (argv : list JsValue) (bound : Number)
  : world * (JsError + ProcRun) :=
  match last argv with
  | Some (JStr command) =>
      match commands w !! command with
      | Some run => (w, inr run)
      | None => (w, inr (mkProcRun [] false (Some 127%Z)))
      end
  | _ => (w, inl (TypeError "cmd must be an array of strings"))
  end.

Definition digits (s : string) : Number :=
  match NilZero.int_of_string s with
  | Some i => Int (Z.of_int i)
  | None => NaN
  end.

Definition latin1 (value : list Byte.byte) : string :=
  string_of_list_ascii (map ascii_of_byte value).

#[export] Instance runtime : Runtime := {|
  World := world;
  exponent_text := Z_toString;
  StringToNumber := digits;
  not_a_function := "TOOLS[name][2] is not a function";
  path_join := fun directory name =>
    match directory with
    | JStr d => inr (d ++ "/" ++ name)%string
    | _ => inl bad_path
    end;
  Bun_file_text := text_of;
  Bun_file_stat := fun w p =>
    match stat_of w p with inr st => inr (Some st) | inl e => inl e end;
  Bun_write := write_to;
  Glob_scan := fun w _ _ => (map fst (map_to_list (files w)), None);
  Regex := string;
  RegExp_new := fun pattern =>
    match pattern with JStr p => inr p | _ => inl (TypeError "pattern") end;
  RegExp_test := fun regex line => Str.includes line regex;
  fs_stat := fun w path =>
    match path with JStr p => stat_of w p | _ => inl bad_path end;
  fs_readdir := fun _ _ => Unreadable (Error "ENOTDIR: not a directory");
  fs_rm := fun w path _ => remove w path;
  fs_unlink := remove;
  fs_rename := rename;
  fs_cp := fun w from to _ => duplicate w from to;
  fs_copyFile := duplicate;
  Bun_spawn := spawn;
  Decoder := unit;
  TextDecoder_new := tt;
  TextDecoder_decode := fun _ value => (tt, latin1 value)
|}.

Definition bytes (s : string) : list Byte.byte :=
  map byte_of_ascii (list_ascii_of_string s).

Definition cfg : Config :=
  mkConfig "http://127.0.0.1:8045/v1/messages" "claude-opus-4-5"
           (Int 50) (Int 10485760) false.

Definition empty : world := mkWorld ∅ ∅.

(** Reads in which every chunk ends with a line feed. *)
Definition aligned_reads : list ReadEvent :=
  [ Data Stdout (bytes ("a" ++ LF ++ "b" ++ LF));
    Data Stderr (bytes ("oops" ++ LF));
    Data Stdout (bytes ("c" ++ LF)) ].

(** The line [hello] arriving in two chunks. *)
Definition straddling_reads : list ReadEvent :=
  [ Data Stdout (bytes "hel"); Data Stdout (bytes ("lo" ++ LF)) ].

(** Two lines with a blank line between them. *)
Definition blank_line_reads : list ReadEvent :=
  [ Data Stdout (bytes ("a" ++ LF ++ LF ++ "b" ++ LF)) ].

(** A world in which [make] prints two lines and exits with 2. *)
Definition with_make : world :=
  mkWorld ∅ {[ "make" := mkProcRun aligned_reads false (Some 2%Z) ]}.

Definition make_args : gmap string JsValue :=
  {[ "command" := JStr "make"; "timeout" := JNum (Int 50) ]}.

(** A world with the one file [a.txt]. *)
Definition one_file (text : string) : world := mkWorld {[ "a.txt" := text ]} ∅.

Definition path_only : gmap string JsValue := {[ "path" := JStr "a.txt" ]}.

(** An invocation of [list] on the current directory, and the response
    that carries it. *)
Definition list_block (id : string) : ContentBlock :=
  mkBlock "tool_use" None (Some id) (Some "list") (Some {[ "path" := JStr "." ]}).

Definition asks_list (id : string) : Completion APIResponse :=
  Return (mkResponse (Some [list_block id]) (Some (mkUsage 12 7))).

(** A response whose invocation carries an empty identifier. *)
Definition asks_list_unidentified : Completion APIResponse :=
  Return (mkResponse (Some [list_block ""]) None).

(** The session after [events], started in the world [w]. *)
Definition session (w : world) (events : list Event) : State :=
  run cfg (initial w) events.

End Sim.

(** * Vocabulary of the properties *)

(** The inclusive range the timeout of [exec] is clamped to. *)
Definition in_range (n : Number) : Prop :=
  exists z, n = Int z /\ (1000 <= z <= 300000)%Z.

(** A declared parameter type that carries the optional mark. *)
Definition optional (value : string) : bool := Str.endsWith value "?".

Definition numeric (value : string) : bool :=
  String.eqb value "number" || String.eqb value "number?".

(** What one entry of [TOOLS] becomes in the schema. *)
Definition schema_matches `{Runtime} (entry : string * Tool) (schema : Schema) : Prop :=
  schema_name schema = fst entry
  /\ schema_description schema = description (snd entry)
  /\ map fst (properties (input_schema schema)) = map fst (params (snd entry))
  /\ (forall key, In key (required (input_schema schema)) <->
                  exists value, In (key, value) (params (snd entry)) /\ optional value = false)
  /\ (forall key value, In (key, value) (params (snd entry)) -> numeric value = true ->
                        In (key, "integer") (properties (input_schema schema))).

(** The configuration with another [MAX_FILE_SIZE]. *)
Definition with_MAX_FILE_SIZE (limit : Number) (cfg : Config) : Config :=
  mkConfig (API_URL cfg) (MODEL cfg) (GREP_LIMIT cfg) limit (IS_WINDOWS cfg).

(** A line that starts a request: not a command and not blank. *)
Definition request (line : string) : Prop :=
  Str.trim line <> "/q" /\ Str.trim line <> "exit" /\ Str.trim line <> "/c"
  /\ Str.trim line <> "".

(** The transport reports non-negative usage. *)
Definition usage_nonneg (e : Event) : Prop :=
  match e with
  | Settled (Return response) =>
      match response_usage response with
      | Some usage => (0 <= input_tokens usage)%Z /\ (0 <= output_tokens usage)%Z
      | None => True
      end
  | _ => True
  end.

(** A transport call or a tool dispatch is pending. *)
Definition in_flight (p : Phase) : Prop :=
  match p with
  | AwaitingAPI | Dispatching _ _ _ => True
  | _ => False
  end.

(** The results [trs] answer the invocations [bs]: one result per
    invocation, in order, under the invocation's identifier. *)
Definition answers (trs : list ToolResult) (bs : list ContentBlock) : Prop :=
  map (fun r => Some (tool_use_id r)) trs = map block_id bs.

(** A conversation in which every assistant turn that holds invocations
    selected by [sel] is followed at once by a turn of results that answer
    them, and no turn of results stands anywhere else. *)
Fixpoint paired_on (sel : ContentBlock -> bool) (conversation : list Message) : Prop :=
  match conversation with
  | [] => True
  | m :: rest =>
      match content m with
      | Text _ => paired_on sel rest
      | Results _ => False
      | Blocks bs =>
          match List.filter sel bs with
          | [] => paired_on sel rest
          | invoked =>
              match rest with
              | r :: rest' =>
                  match content r with
                  | Results trs => answers trs invoked
                  | _ => False
                  end /\ paired_on sel rest'
              | [] => False
              end
          end
      end
  end.

Definition is_tool_use (b : ContentBlock) : bool := String.eqb (block_type b) "tool_use".

(** Pairing over the invocations [main] dispatches. *)
Definition paired (conversation : list Message) : Prop := paired_on dispatched conversation.

Section Vocabulary.
Context `{Runtime}.
Variable cfg : Config.

(** What holds of every state the session reaches. *)
Definition coherent (s : State) : Prop :=
  paired (messages s)
  /\ Forall paired (sent s)
  /\ match phase s with
     | Dispatching blocks rest trs =>
         exists visited, blocks = visited ++ rest /\ answers trs (List.filter dispatched visited)
     | _ => True
     end.

(** The clear command is being read. *)
Definition clear_command (s : State) (e : Event) : Prop :=
  phase s = Idle /\ exists line, e = Line line /\ Str.trim line = "/c".

(** C1 as the specification words it: every invocation segment of the
    conversation has its result. *)
Definition every_invocation_answered (conversation : list Message) : Prop :=
  answers (results conversation) (invocations conversation).

(** C3 as the specification words it: a round that ends with the flag set
    leaves the loop with the assistant turn as the last turn. *)
Definition exits_after_assistant_turn (s : State) : Prop :=
  forall blocks trs,
    phase s = Dispatching blocks [] trs -> stopRequested s = true ->
    phase (run cfg s [Resume; Resume]) = Idle
    /\ messages (run cfg s [Resume; Resume])
       = messages s ++ [mkMessage "assistant" (Blocks blocks)].

End Vocabulary.

(** ** Lines *)

(** Splitting at one character, by recursion on the text. *)
Fixpoint split_at (c : ascii) (s : string) : list string :=
  match s with
  | EmptyString => [""]
  | String d s' =>
      if Ascii.eqb c d then "" :: split_at c s'
      else match split_at c s' with
           | x :: r => String d x :: r
           | [] => [String d ""]
           end
  end.

(** [c] occurs in [s]. *)
Fixpoint mentions (c : ascii) (s : string) : bool :=
  match s with
  | EmptyString => false
  | String d s' => Ascii.eqb c d || mentions c s'
  end.

Definition NL : ascii := ascii_of_nat 10.

(** The number of occurrences of a non-empty [old] in [s], counted from the
    left without overlap; [skip] characters are still part of the last
    occurrence found. *)
Fixpoint occurrences_from (old : string) (skip : nat) (s : string) : nat :=
  match s with
  | EmptyString => 0
  | String _ s' =>
      match skip with
      | S k => occurrences_from old k s'
      | O =>
          if String.prefix old s
          then S (occurrences_from old (String.length old - 1) s')
          else occurrences_from old 0 s'
      end
  end.

Definition occurrences (old s : string) : nat := occurrences_from old 0 s.

(** The line [read] prints for the line [line] at index [index] when no
    offset is given. *)
Definition numbered `{Runtime} (index : nat) (line : string) : string :=
  (Str.padStart 4 (Number_toString (Int (Z.of_nat index + 1))) ++ "| " ++ line)%string.

(** ** The transcript of [exec] *)

Definition channel_eqb (a b : Channel) : bool :=
  match a, b with
  | Stdout, Stdout | Stderr, Stderr => true
  | _, _ => false
  end.

(** The text of a decoded stream: its chunks, one after the other. *)
Definition stream (texts : list string) : string := fold_right String.append "" texts.

(** A chunk that ends where a line ends. *)
Definition line_aligned (text : string) : Prop :=
  text = "" \/ exists body, text = (body ++ LF)%string.

Definition nonempty_lines (text : string) : list string :=
  List.filter (fun l => Str.nonempty l) (Str.split LF text).

(** The lines of a text that are closed by a line feed. *)
Definition complete_lines (text : string) : list string := removelast (Str.split LF text).

(** The entries of [output] that carry the prefix of [ch]. *)
Definition channel_view (ch : Channel) (output : list string) : list string :=
  List.filter (String.prefix (prefix_of ch)) output.

(** A terminal status line. *)
Definition is_marker (line : string) : bool :=
  String.prefix "[exit: " line || String.prefix "[TIMEOUT after " line.

Section Transcript.
Context `{Runtime}.

Definition fresh : Reader := mkReader TextDecoder_new false.

(** What [exec] has in [output] when both [readStream] loops are done. *)
Definition transcript (events : list ReadEvent) : list string :=
  readStreams events fresh fresh [].

(** The texts the decoder of channel [ch] returns, chunk by chunk. *)
Fixpoint decoded (ch : Channel) (events : list ReadEvent) (r : Reader) : list string :=
  match events with
  | [] => []
  | Failed c :: rest =>
      if channel_eqb ch c then decoded ch rest (mkReader (decoder r) true)
      else decoded ch rest r
  | Data c value :: rest =>
      if channel_eqb ch c then
        if ended r then decoded ch rest r
        else let '(d, text) := TextDecoder_decode (decoder r) value in
             text :: decoded ch rest (mkReader d false)
      else decoded ch rest r
  end.

(** C5 as the specification words it: every complete line of a channel's
    decoded stream stands in the transcript under the channel's prefix. *)
Definition each_complete_line_appended (events : list ReadEvent) : Prop :=
  forall ch line,
    In line (complete_lines (stream (decoded ch events fresh))) ->
    In (prefix_of ch ++ line)%string (transcript events).

Definition reader_of (ch : Channel) (out err : Reader) : Reader :=
  match ch with Stdout => out | Stderr => err end.

(** An entry of the transcript: a prefix and a non-empty line. *)
Definition tagged (entry : string) : Prop :=
  exists ch line, entry = (prefix_of ch ++ line)%string
                  /\ mentions NL line = false /\ Str.nonempty line = true.

End Transcript.

(** * Further vocabulary *)

(** No line of [events] is the clear command. *)
Definition never_clears (events : list Event) : Prop :=
  Forall (fun e => forall line, e = Line line -> Str.trim line <> "/c") events.

(** The turn a request appends. *)
Definition user_turn (line : string) : Message := mkMessage "user" (Text (Str.trim line)).

(** [const {content: blocks = []} = ...] *)
Definition blocks_of (response : APIResponse) : list ContentBlock :=
  match response_content response with Some l => l | None => [] end.

Section Rounds.
Context `{Runtime}.
Variable cfg : Config.

(** The blocks of a response dispatched one after the other, each tool in
    the world the one before it left: the world at the end and the results
    in the order of the blocks. *)
Fixpoint dispatch_all (blocks : list ContentBlock) (w : World) : World * list ToolResult :=
  match blocks with
  | [] => (w, [])
  | block :: rest =>
      if dispatched block then
        match block_name block, block_input block, block_id block with
        | Some name, Some input, Some id =>
            match runTool cfg name input w with
            | (w1, Return text) =>
                let '(w2, trs) := dispatch_all rest w1 in
                (w2, mkToolResult "tool_result" id text :: trs)
            | (w1, Throw _) => (w1, [])
            end
        | _, _, _ => dispatch_all rest w
        end
      else dispatch_all rest w
  end.

(** The turns a finished round appends. *)
Definition round_turns (blocks : list ContentBlock) (trs : list ToolResult) : list Message :=
  mkMessage "assistant" (Blocks blocks)
    :: match trs with [] => [] | _ => [mkMessage "user" (Results trs)] end.

End Rounds.

(** The line [read] prints for [line] at index [index] of the selection
    when the offset is the integer [o]. *)
Definition numbered_from `{Runtime} (o : Z) (index : nat) (line : string) : string :=
  (Str.padStart 4 (Number_toString (Int (o + Z.of_nat index + 1))) ++ "| " ++ line)%string.

Definition DOLLAR : ascii := ascii_of_nat 36.

(** What [edit] does once it has the new text: it writes and returns
    [ok], or throws what [Bun.write] throws. *)
Definition writes `{Runtime} (w : World) (path : JsValue) (text : string)
  : World * Completion string :=
  match Bun_write w path (JStr text) with
  | (w', Some e) => (w', Throw e)
  | (w', None) => (w', Return "ok")
  end.

(** [filepath] holds [name] as a directory between two separators of the
    same kind. *)
Definition has_segment (filepath name : string) : Prop :=
  exists before after,
    filepath = (before ++ "/" ++ name ++ "/" ++ after)%string
    \/ filepath = (before ++ "\" ++ name ++ "\" ++ after)%string.

(** Newest first. *)
Definition newer_first (a b : string * Z) : Prop := (snd b <= snd a)%Z.

(** The event belongs to the channel. *)
Definition on_channel (ch : Channel) (e : ReadEvent) : bool :=
  match e with
  | Data c _ | Failed c => channel_eqb ch c
  end.

(** ** Sample data *)

(** A session at its first prompt. *)
Definition sample_start : State := Sim.session Sim.empty [].

(** A session waiting for the transport to answer [list files]. *)
Definition sample_waiting : State :=
  Sim.session Sim.empty [Line "list files"; Resume].

(** A response with a text and two invocations of [list]. *)
Definition sample_response : APIResponse :=
  mkResponse
    (Some [ mkBlock "text" (Some "Looking.") None None None;
            Sim.list_block "toolu_01"; Sim.list_block "toolu_02" ])
    None.

Definition sample_answer : APIResponse :=
  mkResponse (Some [mkBlock "text" (Some "Done.") None None None]) None.

Definition sample_results : list ToolResult :=
  [ mkToolResult "tool_result" "toolu_01" "error: ENOTDIR: not a directory";
    mkToolResult "tool_result" "toolu_02" "error: ENOTDIR: not a directory" ].

Definition sample_three_lines : Sim.world := Sim.one_file ("x" ++ LF ++ "y" ++ LF ++ "z").

Definition sample_window : gmap string JsValue :=
  {[ "path" := JStr "a.txt"; "offset" := JNum (Int 1); "limit" := JNum (Int 1) ]}.

Definition sample_limit_zero : gmap string JsValue :=
  {[ "path" := JStr "a.txt"; "limit" := JNum (Int 0) ]}.

Definition sample_last_two : gmap string JsValue :=
  {[ "path" := JStr "a.txt"; "offset" := JNum (Int (-2)) ]}.

Definition sample_edit (old new : string) : gmap string JsValue :=
  {[ "path" := JStr "a.txt"; "old" := JStr old; "new" := JStr new ]}.

Definition sample_edit_all (old new : string) : gmap string JsValue :=
  {[ "path" := JStr "a.txt"; "old" := JStr old; "new" := JStr new; "all" := JBool true ]}.

Definition sample_two_files : Sim.world :=
  Sim.mkWorld {[ "a.txt" := ("abc" ++ LF ++ "b")%string; "b.txt" := "b" ]} ∅.


Definition sample_star : gmap string JsValue := {[ "pattern" := JStr "*" ]}.

Definition sample_content_only : gmap string JsValue := {[ "content" := JStr "x" ]}.

Definition sample_no_args : gmap string JsValue := ∅.


(** The last turn of the conversation is a user turn. *)
Definition ends_with_user (conversation : list Message) : Prop :=
  exists m, last conversation = Some m /\ role m = "user".

(** Where the loop test finds the session, and what the transport was
    handed. *)
Definition ready_to_call `{Runtime} (s : State) : Prop :=
  (phase s = LoopTest -> ends_with_user (messages s))
  /\ Forall ends_with_user (sent s).

(** The bound of [exec] for an integer timeout. *)
Definition clamp (t : Z) : Z := Z.min (Z.max t 1000) 300000.

Definition sample_sleep : Sim.world :=
  Sim.mkWorld ∅ {[ "sleep 5" := mkProcRun [] true None ]}.

Definition sample_sleep_args : gmap string JsValue :=
  {[ "command" := JStr "sleep 5"; "timeout" := JNum (Int 50) ]}.

(** * Properties *)

(** ** Facts about strings *)

Section StringFacts.

Lemma append_cons (c : ascii) (a b : string) :
  (String c a ++ b)%string = String c (a ++ b).
Proof. reflexivity. Qed.

Lemma append_nil_l (s : string) : ("" ++ s)%string = s.
Proof. reflexivity. Qed.

Lemma prefix_cons (c : ascii) (p s : string) :
  String.prefix (String c p) (String c s) = String.prefix p s.
Proof. cbn. destruct (ascii_dec c c) as [_|Hne]; [reflexivity | congruence]. Qed.

Lemma prefix_append (p s : string) : String.prefix p (p ++ s) = true.
Proof.
  induction p as [|c p IH].
  - now destruct s.
  - now rewrite append_cons, prefix_cons.
Qed.

Lemma append_nil_r (s : string) : (s ++ "")%string = s.
Proof. induction s as [|c s IH]; [reflexivity|]. now rewrite append_cons, IH. Qed.

Lemma append_assoc (a b c : string) : ((a ++ b) ++ c)%string = (a ++ (b ++ c))%string.
Proof. induction a as [|x a IH]; [reflexivity|]. now rewrite !append_cons, IH. Qed.

Lemma length_append (a b : string) :
  String.length (a ++ b) = String.length a + String.length b.
Proof. induction a as [|x a IH]; [reflexivity|]. rewrite append_cons. cbn. now rewrite IH. Qed.

Lemma append_nonempty (a b : string) :
  Str.nonempty b = true -> Str.nonempty (a ++ b) = true.
Proof. destruct a; [now rewrite append_nil_l | reflexivity]. Qed.

Lemma prefix_nil (s : string) : String.prefix "" s = true.
Proof. now destruct s. Qed.

Lemma prefix_drop (p s : string) :
  String.prefix p s = true -> s = (p ++ Str.drop (String.length p) s)%string.
Proof.
  revert s. induction p as [|c p IH]; intros s Hp; [reflexivity|].
  destruct s as [|d s]; [discriminate|]. cbn in Hp.
  destruct (ascii_dec c d) as [->|]; [|discriminate].
  rewrite append_cons. cbn. f_equal. now apply IH.
Qed.

Lemma cut_nil (sep : string) :
  Str.cut sep "" = if String.prefix sep ""
                   then Some ("", Str.drop (String.length sep) "") else None.
Proof. reflexivity. Qed.

Lemma cut_cons (sep : string) (c : ascii) (s : string) :
  Str.cut sep (String c s)
  = if String.prefix sep (String c s)
    then Some ("", Str.drop (String.length sep) (String c s))
    else match Str.cut sep s with
         | Some (a, b) => Some (String c a, b)
         | None => None
         end.
Proof. reflexivity. Qed.

Lemma cut_Some (sep s a b : string) :
  Str.cut sep s = Some (a, b) -> s = (a ++ sep ++ b)%string.
Proof.
  revert a b. induction s as [|c s IH]; intros a b Hcut.
  - rewrite cut_nil in Hcut. destruct (String.prefix sep "") eqn:Hp; [|discriminate].
    injection Hcut as <- <-. now apply prefix_drop.
  - rewrite cut_cons in Hcut. destruct (String.prefix sep (String c s)) eqn:Hp.
    + injection Hcut as <- <-. now apply prefix_drop.
    + destruct (Str.cut sep s) as [[a' b']|]; [|discriminate].
      injection Hcut as <- <-. rewrite append_cons. f_equal. now apply IH.
Qed.

Lemma cut_shorter (sep s a b : string) :
  sep <> "" -> Str.cut sep s = Some (a, b) -> String.length b < String.length s.
Proof.
  intros Hne Hcut. apply cut_Some in Hcut. subst s. rewrite !length_append.
  destruct sep; [congruence | cbn; lia].
Qed.

Lemma split_fuel_S (sep : string) (k : nat) (s : string) :
  Str.split_fuel (S k) sep s = match Str.cut sep s with
                               | None => [s]
                               | Some (a, b) => a :: Str.split_fuel k sep b
                               end.
Proof. reflexivity. Qed.

Lemma cut_nil_None (sep : string) : sep <> "" -> Str.cut sep "" = None.
Proof. intros Hne. rewrite cut_nil. destruct sep; [congruence | reflexivity]. Qed.

Lemma split_fuel_nil (sep : string) (n : nat) : sep <> "" -> Str.split_fuel n sep "" = [""].
Proof.
  intros Hne. destruct n; [reflexivity|]. now rewrite split_fuel_S, cut_nil_None.
Qed.

Lemma split_fuel_enough (sep : string) (n m : nat) (s : string) :
  sep <> "" -> String.length s <= n -> String.length s <= m ->
  Str.split_fuel n sep s = Str.split_fuel m sep s.
Proof.
  intros Hne. revert m s. induction n as [|n IH]; intros m s Hn Hm.
  - destruct s; [|cbn in Hn; lia]. now rewrite !split_fuel_nil.
  - destruct m as [|m].
    + destruct s; [|cbn in Hm; lia]. now rewrite !split_fuel_nil.
    + rewrite !split_fuel_S. destruct (Str.cut sep s) as [[a b]|] eqn:Hcut; [|reflexivity].
      apply (cut_shorter _ _ _ _ Hne) in Hcut. f_equal. apply IH; lia.
Qed.

(** The equation [split] satisfies for a non-empty separator. *)
Lemma split_unfold (sep s : string) :
  sep <> "" ->
  Str.split sep s = match Str.cut sep s with
                    | None => [s]
                    | Some (a, b) => a :: Str.split sep b
                    end.
Proof.
  intros Hne. unfold Str.split. destruct sep as [|c sep]; [congruence|].
  destruct s as [|d s].
  - now rewrite split_fuel_nil, cut_nil_None.
  - change (String.length (String d s)) with (S (String.length s)). rewrite split_fuel_S.
    destruct (Str.cut (String c sep) (String d s)) as [[a b]|] eqn:Hcut; [|reflexivity].
    f_equal. apply split_fuel_enough; [assumption| |lia].
    apply (cut_shorter _ _ _ _ Hne) in Hcut. cbn in Hcut. lia.
Qed.

Lemma split_at_nonempty (c : ascii) (s : string) : split_at c s <> [].
Proof.
  induction s as [|d s IH]; cbn; [discriminate|].
  destruct (Ascii.eqb c d); [discriminate|]. destruct (split_at c s); discriminate.
Qed.

Lemma cut_char (c d : ascii) (s : string) :
  Str.cut (String c "") (String d s)
  = if Ascii.eqb c d then Some ("", s)
    else match Str.cut (String c "") s with
         | Some (a, b) => Some (String d a, b)
         | None => None
         end.
Proof.
  rewrite cut_cons. destruct (ascii_dec c d) as [->|Hne].
  - rewrite Ascii.eqb_refl, prefix_cons, prefix_nil. reflexivity.
  - cbn [String.prefix]. destruct (ascii_dec c d) as [|_]; [congruence|].
    apply Ascii.eqb_neq in Hne. now rewrite Hne.
Qed.

Lemma split_at_cut (c : ascii) (n : nat) (s : string) :
  String.length s <= n ->
  split_at c s = match Str.cut (String c "") s with
                 | None => [s]
                 | Some (a, b) => a :: split_at c b
                 end.
Proof.
  revert s. induction n as [|n IH]; intros s Hn.
  - destruct s; [reflexivity | cbn in Hn; lia].
  - destruct s as [|d s]; [reflexivity|]. rewrite cut_char. cbn [split_at].
    destruct (Ascii.eqb c d); [reflexivity|].
    rewrite (IH s) by (cbn in Hn; lia).
    destruct (Str.cut (String c "") s) as [[a b]|]; reflexivity.
Qed.

(** [split] at a one-character separator is [split_at]. *)
Lemma split_char (c : ascii) (s : string) : Str.split (String c "") s = split_at c s.
Proof.
  remember (String.length s) as n eqn:Hn. revert s Hn.
  induction n as [n IH] using lt_wf_ind. intros s ->.
  rewrite split_unfold by discriminate. rewrite (split_at_cut c _ s (le_n _)).
  destruct (Str.cut (String c "") s) as [[a b]|] eqn:Hcut; [|reflexivity].
  f_equal. apply (IH (String.length b)); [|reflexivity].
  apply (cut_shorter (String c "") s a b); [discriminate | exact Hcut].
Qed.

Lemma split_at_app (c : ascii) (a b : string) :
  split_at c (a ++ String c b) = split_at c a ++ split_at c b.
Proof.
  induction a as [|d a IH].
  - rewrite append_nil_l. cbn. now rewrite Ascii.eqb_refl.
  - rewrite append_cons. cbn [split_at]. destruct (Ascii.eqb c d).
    + now rewrite IH.
    + rewrite IH. pose proof (split_at_nonempty c a).
      destruct (split_at c a); [congruence | reflexivity].
Qed.

Lemma split_at_clean (c : ascii) (s : string) : mentions c s = false -> split_at c s = [s].
Proof.
  induction s as [|d s IH]; [reflexivity|]. cbn. intros Hm.
  apply orb_false_iff in Hm as [Hd Hs]. rewrite Hd, (IH Hs). reflexivity.
Qed.

Lemma split_at_pieces (c : ascii) (s : string) :
  Forall (fun piece => mentions c piece = false) (split_at c s).
Proof.
  induction s as [|d s IH]; cbn; [now constructor|].
  destruct (Ascii.eqb c d) eqn:Hd; [now constructor|].
  destruct (split_at c s) as [|x r]; [constructor; [cbn; now rewrite Hd | constructor]|].
  inversion IH as [|? ? Hx Hr]; subst. constructor; [cbn; now rewrite Hd, Hx | exact Hr].
Qed.

Lemma join_cons (sep x : string) (l : list string) :
  l <> [] -> Str.join sep (x :: l) = (x ++ sep ++ Str.join sep l)%string.
Proof. destruct l; [congruence | reflexivity]. Qed.

Lemma join_cons_char (sep : string) (d : ascii) (x : string) (l : list string) :
  Str.join sep (String d x :: l) = String d (Str.join sep (x :: l)).
Proof. destruct l; reflexivity. Qed.

(** Joining the lines of a text gives the text back. *)
Lemma join_split_at (c : ascii) (s : string) : Str.join (String c "") (split_at c s) = s.
Proof.
  induction s as [|d s IH]; [reflexivity|]. cbn [split_at].
  destruct (Ascii.eqb c d) eqn:Hd.
  - apply Ascii.eqb_eq in Hd. subst d.
    rewrite join_cons by apply split_at_nonempty. now rewrite IH.
  - pose proof (split_at_nonempty c s).
    destruct (split_at c s) as [|x r]; [congruence|].
    rewrite join_cons_char. now rewrite IH.
Qed.

(** Splitting a text joined from lines gives the lines back. *)
Lemma split_at_join (c : ascii) (l : list string) :
  l <> [] -> Forall (fun line => mentions c line = false) l ->
  split_at c (Str.join (String c "") l) = l.
Proof.
  induction l as [|x l IH]; [congruence|]. intros _ Hall.
  inversion Hall as [|? ? Hx Hl]; subst. destruct l as [|y l].
  - cbn. now apply split_at_clean.
  - rewrite join_cons by discriminate. cbn [String.append].
    change (String c "" ++ Str.join (String c "") (y :: l))%string
      with (String c (Str.join (String c "") (y :: l))).
    rewrite split_at_app, (split_at_clean c x Hx), IH; [reflexivity | discriminate | exact Hl].
Qed.

Lemma mentions_append (c : ascii) (a b : string) :
  mentions c (a ++ b) = mentions c a || mentions c b.
Proof.
  induction a as [|d a IH]; [reflexivity|].
  rewrite append_cons. cbn. now rewrite IH, orb_assoc.
Qed.

End StringFacts.

(** ** The timeout bound of [exec] *)

Section Timeout.
Context `{Runtime}.

Lemma clamp_in_range (n : Number) :
  n <> NaN -> in_range (Num.min (Num.max n (Int 1000)) (Int 300000)).
Proof.
  intros Hn. destruct n as [| |z|]; try congruence; cbn.
  - exists 1000%Z. split; [reflexivity | lia].
  - destruct (z <=? 1000)%Z eqn:E1; cbn.
    + exists 1000%Z. split; [reflexivity | lia].
    + destruct (z <=? 300000)%Z eqn:E2.
      * exists z. split; [reflexivity | lia].
      * exists 300000%Z. split; [reflexivity | lia].
  - exists 300000%Z. split; [reflexivity | lia].
Qed.

Lemma clamp_NaN : Num.min (Num.max NaN (Int 1000)) (Int 300000) = NaN.
Proof. reflexivity. Qed.

(** C2, as the code has it: whenever the raw [timeout] converts to a
    number ([ToNumber] is not [NaN]), negative, zero, huge and infinite
    values included, the bound handed to the timer lies in
    [1000, 300000]. *)
Theorem timeoutMs_in_range (args : gmap string JsValue) :
  ToNumber (arg args "timeout") <> NaN -> in_range (timeoutMs args).
Proof. intros Hn. unfold timeoutMs, Math_max. cbn. now apply clamp_in_range. Qed.

(** A [timeout] that does not convert to a number leaves [NaN] as the
    bound: [Math.max] and [Math.min] pass it on. *)
Lemma timeoutMs_NaN (args : gmap string JsValue) :
  ToNumber (arg args "timeout") = NaN -> timeoutMs args = NaN.
Proof. intros Hn. unfold timeoutMs, Math_max. cbn. rewrite Hn. reflexivity. Qed.

End Timeout.

Lemma timeoutMs_in_range_witness :
  ToNumber (H := Sim.runtime) (arg {[ "command" := JStr "ls"; "timeout" := JNum (Int 50) ]} "timeout")
    <> NaN
  /\ in_range (timeoutMs (H := Sim.runtime)
                 {[ "command" := JStr "ls"; "timeout" := JNum (Int 50) ]}).
Proof.
  split.
  - vm_compute. discriminate.
  - apply (timeoutMs_in_range (H := Sim.runtime)). vm_compute. discriminate.
Defined.

(** C2 as stated fails: [exec] called without a [timeout] arms the timer
    with [NaN]. *)
Lemma timeoutMs_missing_not_in_range :
  ~ in_range (timeoutMs (H := Sim.runtime) {[ "command" := JStr "sleep 5" ]}).
Proof. intros [z [Hz _]]. vm_compute in Hz. discriminate. Qed.

Example timeoutMs_50 :
  timeoutMs (H := Sim.runtime) {[ "timeout" := JNum (Int 50) ]} = Int 1000.
Proof. reflexivity. Qed.

Example timeoutMs_huge :
  timeoutMs (H := Sim.runtime) {[ "timeout" := JNum PosInf ]} = Int 300000.
Proof. reflexivity. Qed.

(** ** Dispatch *)

Section Dispatch.
Context `{Runtime}.
Variable cfg : Config.

Lemma try_catch_returns {A} (m : M A) (handler : JsError -> M A) (w : World) :
  (forall e w1, exists w2 a, handler e w1 = (w2, Return a)) ->
  exists w' a, try_catch m handler w = (w', Return a).
Proof.
  intros Hh. unfold try_catch. destruct (m w) as [w1 [a|e]].
  - now exists w1, a.
  - apply Hh.
Qed.

(** C4: [runTool] settles with a text for every name and every argument
    map.  A name that is not a key of [TOOLS] gives a text that starts
    with [error: ] and leaves the world alone, and a fault thrown by a
    handler becomes the text [error: ] followed by the rendering of the
    fault. *)
Theorem runTool_never_throws (name : string) (args : gmap string JsValue) (w : World) :
  exists w' text,
    runTool cfg name args w = (w', Return text)
    /\ (own_property (TOOLS cfg) name = None ->
        w' = w /\ String.prefix "error: " text = true)
    /\ (forall tool w1 e,
           TOOLS_get cfg name = Own tool ->
           handler tool args w = (w1, Throw e) ->
           w' = w1 /\ text = ("error: " ++ Error_toString e)%string).
Proof.
  unfold runTool, try_catch, TOOLS_get.
  destruct (own_property (TOOLS cfg) name) as [tool|] eqn:Hown.
  - destruct (handler tool args w) as [w1 [text|e]] eqn:Hrun.
    + exists w1, text. split; [reflexivity|]. split; [discriminate|].
      intros tool' w2 e' Heq Hthrow. injection Heq as <-. congruence.
    + eexists w1, _. split; [reflexivity|]. split; [discriminate|].
      intros tool' w2 e' Heq Hthrow. injection Heq as <-.
      rewrite Hrun in Hthrow. injection Hthrow as <- <-. split; reflexivity.
  - destruct (existsb (String.eqb name) Object_prototype).
    + eexists w, _. split; [reflexivity|].
      split; [split; [reflexivity | apply prefix_append] | discriminate].
    + eexists w, _. split; [reflexivity|].
      split; [split; [reflexivity|] | discriminate].
      exact (prefix_append "error: " ("unknown tool " ++ name)).
Qed.

(** The three shapes of a dispatch. *)
Lemma runTool_unknown (name : string) (args : gmap string JsValue) (w : World) :
  TOOLS_get cfg name = Absent ->
  runTool cfg name args w = (w, Return ("error: unknown tool " ++ name)%string).
Proof. intros Hget. unfold runTool, try_catch. now rewrite Hget. Qed.

Lemma runTool_inherited (name : string) (args : gmap string JsValue) (w : World) :
  TOOLS_get cfg name = Inherited ->
  runTool cfg name args w =
    (w, Return ("error: " ++ Error_toString (TypeError not_a_function))%string).
Proof. intros Hget. unfold runTool, try_catch. now rewrite Hget. Qed.

Lemma runTool_own (name : string) (args : gmap string JsValue) (w : World) tool :
  TOOLS_get cfg name = Own tool ->
  runTool cfg name args w =
    match handler tool args w with
    | (w', Return text) => (w', Return text)
    | (w', Throw e) => (w', Return ("error: " ++ Error_toString e)%string)
    end.
Proof. intros Hget. unfold runTool, try_catch. now rewrite Hget. Qed.

End Dispatch.

Example runTool_missing_path :
  runTool (H := Sim.runtime) Sim.cfg "read" ∅ Sim.empty
  = (Sim.empty, Return "error: Error: path parameter is required").
Proof. vm_compute. reflexivity. Qed.

Example runTool_no_such_tool :
  runTool (H := Sim.runtime) Sim.cfg "frobnicate" ∅ Sim.empty
  = (Sim.empty, Return "error: unknown tool frobnicate").
Proof. vm_compute. reflexivity. Qed.

Example runTool_toString :
  runTool (H := Sim.runtime) Sim.cfg "toString" ∅ Sim.empty
  = (Sim.empty, Return "error: TypeError: TOOLS[name][2] is not a function").
Proof. vm_compute. reflexivity. Qed.

(** ** The schema *)

Section SchemaOf.
Context `{Runtime}.

Lemma required_exactly (ps : list (string * string)) (key : string) :
  In key (map fst (List.filter (fun '(_, value) => negb (Str.endsWith value "?")) ps))
  <-> exists value, In (key, value) ps /\ optional value = false.
Proof.
  unfold optional. rewrite in_map_iff. split.
  - intros [[k v] [Hk Hin]]. apply filter_In in Hin as [Hin Hv]. cbn in Hk. subst k.
    exists v. split; [assumption|]. now apply negb_true_iff.
  - intros [v [Hin Hv]]. exists (key, v). split; [reflexivity|].
    apply filter_In. split; [assumption|]. now apply negb_true_iff.
Qed.

Lemma numeric_exposed (value : string) :
  numeric value = true -> exposed_type value = "integer".
Proof.
  unfold numeric. intros Hn. apply orb_true_iff in Hn as [Hn|Hn];
    apply String.eqb_eq in Hn; subst value; reflexivity.
Qed.

(** C9: [makeSchema] yields one entry per key of [TOOLS], in order and
    under the same name; [required] lists exactly the parameters whose
    declared type does not end in [?]; a parameter declared [number] or
    [number?] is exposed as [integer]. *)
Theorem makeSchema_one_entry_per_tool (cfg : Config) :
  map schema_name (makeSchema cfg) = map fst (TOOLS cfg)
  /\ NoDup (map fst (TOOLS cfg))
  /\ length (makeSchema cfg) = 10
  /\ Forall2 schema_matches (TOOLS cfg) (makeSchema cfg).
Proof.
  split; [reflexivity|]. split.
  { cbn. apply (bool_decide_unpack _). vm_compute. exact I. }
  split; [reflexivity|].
  unfold makeSchema. induction (TOOLS cfg) as [|[name tool] rest IH]; cbn; constructor.
  - repeat split; cbn.
    + rewrite map_map. apply map_ext. now intros [k v].
    + apply required_exactly.
    + apply required_exactly.
    + intros key value Hin Hnum. apply in_map_iff. exists (key, value).
      split; [|assumption]. now rewrite (numeric_exposed value Hnum).
  - exact IH.
Qed.

End SchemaOf.

Example makeSchema_exec :
  nth_error (makeSchema (H := Sim.runtime) Sim.cfg) 5
  = Some (mkSchema "exec" "Execute shell command with live output and timeout"
            (mkInputSchema "object" [("command", "string"); ("timeout", "integer")]
                           ["command"; "timeout"])).
Proof. vm_compute. reflexivity. Qed.

Example makeSchema_read :
  nth_error (makeSchema (H := Sim.runtime) Sim.cfg) 0
  = Some (mkSchema "read" "Read file with line numbers"
            (mkInputSchema "object"
               [("path", "string"); ("offset", "integer"); ("limit", "integer")]
               ["path"])).
Proof. vm_compute. reflexivity. Qed.

(** ** The session *)

Section Session.
Context `{Runtime}.
Variable cfg : Config.

Lemma trim_cases (line : string) :
  request line
  \/ Str.trim line = "/q" \/ Str.trim line = "exit" \/ Str.trim line = "/c"
  \/ Str.trim line = "".
Proof.
  unfold request.
  destruct (string_dec (Str.trim line) "/q"); [tauto|].
  destruct (string_dec (Str.trim line) "exit"); [tauto|].
  destruct (string_dec (Str.trim line) "/c"); [tauto|].
  destruct (string_dec (Str.trim line) ""); tauto.
Qed.

Lemma on_line_request (line : string) (s : State) :
  request line ->
  on_line line s
  = set_phase LoopTest (set_stop false (push (mkMessage "user" (Text (Str.trim line))) s)).
Proof.
  intros (Hq & He & Hc & Hn). unfold on_line.
  apply String.eqb_neq in Hq, He, Hc. rewrite Hq, He, Hc. cbn.
  destruct (Str.trim line); [congruence | reflexivity].
Qed.

Lemma on_line_clear (line : string) (s : State) :
  Str.trim line = "/c" ->
  on_line line s = mkState (world s) [] 0 0 (stopRequested s) Idle (sent s).
Proof. intros Hc. unfold on_line. rewrite Hc. reflexivity. Qed.

Lemma on_line_totals (line : string) (s : State) :
  Str.trim line <> "/c" ->
  totalInputTokens (on_line line s) = totalInputTokens s
  /\ totalOutputTokens (on_line line s) = totalOutputTokens s.
Proof.
  intros Hc. unfold on_line.
  destruct (String.eqb (Str.trim line) "/q" || String.eqb (Str.trim line) "exit");
    [now split|].
  apply String.eqb_neq in Hc. rewrite Hc.
  destruct (negb (Str.nonempty (Str.trim line))); now split.
Qed.

Lemma on_block_totals blocks rest trs (s : State) :
  totalInputTokens (on_block cfg blocks rest trs s) = totalInputTokens s
  /\ totalOutputTokens (on_block cfg blocks rest trs s) = totalOutputTokens s.
Proof.
  unfold on_block. destruct rest as [|block rest'].
  - destruct trs; now split.
  - destruct (dispatched block); [|now split].
    destruct (block_name block), (block_input block), (block_id block); try now split.
    destruct (runTool _ _ _ _) as [w [result|e]]; now split.
Qed.

(** C8: reading anything but the clear command never lowers a counter
    (the transport reporting non-negative usage); a settled transport call
    adds the usage it reports; the clear command zeroes both counters and
    empties the conversation, so that the next request hands the transport
    the new utterance alone. *)
Theorem usage_counters (s : State) (e : Event) :
  usage_nonneg e ->
  (~ clear_command s e ->
   (totalInputTokens s <= totalInputTokens (step cfg s e))%Z
   /\ (totalOutputTokens s <= totalOutputTokens (step cfg s e))%Z)
  /\ (forall response usage,
        phase s = AwaitingAPI -> e = Settled (Return response) ->
        response_usage response = Some usage ->
        totalInputTokens (step cfg s e) = (totalInputTokens s + input_tokens usage)%Z
        /\ totalOutputTokens (step cfg s e) = (totalOutputTokens s + output_tokens usage)%Z)
  /\ (clear_command s e ->
      totalInputTokens (step cfg s e) = 0%Z
      /\ totalOutputTokens (step cfg s e) = 0%Z
      /\ messages (step cfg s e) = []
      /\ forall line, request line ->
           sent (run cfg (step cfg s e) [Line line; Resume])
           = [mkMessage "user" (Text (Str.trim line))] :: sent s).
Proof.
  intros Hnn. split; [|split].
  - intros Hclear. unfold step.
    destruct (phase s) eqn:Hp; destruct e as [line| | |r|]; cbn; try lia.
    + destruct (on_line_totals line s) as [-> ->]; [|lia].
      intros Hc. apply Hclear. split; [exact Hp|]. now exists line.
    + unfold on_loop_test. destruct (stopRequested s); cbn; lia.
    + destruct r as [response|err]; cbn; [|lia].
      cbn in Hnn. destruct (response_usage response); cbn; lia.
    + destruct (on_block_totals blocks rest toolResults s) as [-> ->]. lia.
  - intros response usage Hp -> Hu. unfold step. rewrite Hp. cbn. rewrite Hu. now split.
  - intros [Hp (line & -> & Hc)]. unfold step. rewrite Hp.
    rewrite (on_line_clear line s Hc). cbn. repeat split.
    intros line' Hreq. rewrite (on_line_request line' _ Hreq). reflexivity.
Qed.

End Session.

Lemma usage_counters_witness :
  usage_nonneg (Settled (Sim.asks_list "toolu_01"))
  /\ totalInputTokens
       (step Sim.cfg (Sim.session Sim.empty [Line "list files"; Resume])
             (Settled (Sim.asks_list "toolu_01"))) = 12%Z.
Proof.
  assert (Hnn : usage_nonneg (Settled (Sim.asks_list "toolu_01"))) by (cbn; lia).
  split; [exact Hnn|].
  destruct (usage_counters (H := Sim.runtime) Sim.cfg
              (Sim.session Sim.empty [Line "list files"; Resume])
              (Settled (Sim.asks_list "toolu_01")) Hnn) as (_ & Hacc & _).
  destruct (Hacc _ _ eq_refl eq_refl eq_refl) as [Hin _]. exact Hin.
Defined.

(** ** Cancellation *)

Section Cancellation.
Context `{Runtime}.
Variable cfg : Config.

Lemma on_block_set_stop blocks rest trs (b : bool) (s : State) :
  on_block cfg blocks rest trs (set_stop b s) = set_stop b (on_block cfg blocks rest trs s).
Proof.
  unfold on_block. destruct rest as [|block rest'].
  - destruct trs; reflexivity.
  - destruct (dispatched block); [|reflexivity].
    destruct (block_name block), (block_input block), (block_id block); try reflexivity.
    cbn. destruct (runTool _ _ _ _) as [w [result|e]]; reflexivity.
Qed.

(** C3, as the code has it.  SIGINT does nothing but raise the flag.  While
    a transport call or a dispatch is pending the session moves on exactly
    as it would without the flag.  The round ends by appending the assistant
    turn and, when a tool was dispatched, the turn of results.  The loop test
    that follows sees the flag and leaves for [Idle] without a transport
    call.  A line that starts a request lowers the flag. *)
Theorem cancellation_is_cooperative (s : State) :
  (phase s <> Exited -> step cfg s SIGINT = set_stop true s)
  /\ (forall e, in_flight (phase s) ->
                step cfg (set_stop true s) e = set_stop true (step cfg s e))
  /\ (forall blocks trs,
        phase s = Dispatching blocks [] trs ->
        messages (step cfg s Resume)
        = messages s ++ mkMessage "assistant" (Blocks blocks)
                        :: match trs with
                           | [] => []
                           | _ => [mkMessage "user" (Results trs)]
                           end
        /\ sent (step cfg s Resume) = sent s
        /\ phase (step cfg s Resume) = match trs with [] => Idle | _ => LoopTest end)
  /\ (phase s = LoopTest -> stopRequested s = true ->
      step cfg s Resume = set_phase Idle s)
  /\ (forall line, phase s = Idle -> request line ->
                   stopRequested (step cfg s (Line line)) = false
                   /\ phase (step cfg s (Line line)) = LoopTest).
Proof.
  split; [|split; [|split; [|split]]].
  - intros Hp. unfold step. destruct (phase s); congruence.
  - intros e Hin. unfold step. cbn [phase set_stop].
    destruct (phase s) eqn:Hp; try contradiction.
    + destruct e as [line| | |r|]; try reflexivity.
      destruct r as [response|err]; [|reflexivity].
      cbn. destruct (response_usage response); reflexivity.
    + destruct e as [line| | |r|]; try reflexivity.
      apply on_block_set_stop.
  - intros blocks trs Hp. unfold step. rewrite Hp. cbn.
    destruct trs; cbn; rewrite <- ?app_assoc; repeat split.
  - intros Hp Hstop. unfold step. rewrite Hp. unfold on_loop_test. now rewrite Hstop.
  - intros line Hp Hreq. unfold step. rewrite Hp.
    rewrite (on_line_request line s Hreq). now split.
Qed.

End Cancellation.

Lemma cancellation_is_cooperative_witness :
  messages (step Sim.cfg
              (Sim.session Sim.empty
                 [Line "list files"; Resume; Settled (Sim.asks_list "toolu_01");
                  SIGINT; Resume])
              Resume)
  = [ mkMessage "user" (Text "list files");
      mkMessage "assistant" (Blocks [Sim.list_block "toolu_01"]);
      mkMessage "user"
        (Results [mkToolResult "tool_result" "toolu_01" "error: ENOTDIR: not a directory"]) ].
Proof.
  destruct (cancellation_is_cooperative (H := Sim.runtime) Sim.cfg
              (Sim.session Sim.empty
                 [Line "list files"; Resume; Settled (Sim.asks_list "toolu_01");
                  SIGINT; Resume]))
    as (_ & _ & Hround & _).
  destruct (Hround [Sim.list_block "toolu_01"]
                   [mkToolResult "tool_result" "toolu_01" "error: ENOTDIR: not a directory"]
                   eq_refl) as [Hmessages _].
  exact Hmessages.
Defined.

(** A session in which SIGINT arrives while [list] is being dispatched: the
    dispatch completes, both turns are appended, and the transport has
    been called once. *)
Example interrupted_round :
  let s := Sim.session Sim.empty
             [Line "list files"; Resume; Settled (Sim.asks_list "toolu_01");
              SIGINT; Resume; Resume; Resume] in
  phase s = Idle
  /\ stopRequested s = true
  /\ messages s
     = [ mkMessage "user" (Text "list files");
         mkMessage "assistant" (Blocks [Sim.list_block "toolu_01"]);
         mkMessage "user"
           (Results [mkToolResult "tool_result" "toolu_01"
                                  "error: ENOTDIR: not a directory"]) ]
  /\ sent s = [[mkMessage "user" (Text "list files")]].
Proof. vm_compute. repeat split. Qed.

(** C3 as stated fails: after the interrupted dispatch the loop does not
    leave with the assistant turn last; the turn of results follows it. *)
Lemma cancelled_round_keeps_results :
  ~ exits_after_assistant_turn Sim.cfg
      (Sim.session Sim.empty
         [Line "list files"; Resume; Settled (Sim.asks_list "toolu_01"); SIGINT; Resume]).
Proof.
  intros Hclaim.
  destruct (Hclaim [Sim.list_block "toolu_01"]
                   [mkToolResult "tool_result" "toolu_01" "error: ENOTDIR: not a directory"]
                   ltac:(vm_compute; reflexivity) ltac:(vm_compute; reflexivity))
    as [Hphase Hmessages].
  vm_compute in Hmessages. discriminate Hmessages.
Qed.

(** ** Invocations and their results *)

Section Pairing.
Context `{Runtime}.
Variable cfg : Config.

Lemma paired_app_bounded (n : nat) (a b : list Message) :
  length a <= n -> paired a -> paired b -> paired (a ++ b).
Proof.
  unfold paired. revert a. induction n as [|n IH]; intros a Hlen Ha Hb.
  - destruct a; [exact Hb | cbn in Hlen; lia].
  - destruct a as [|m rest]; [exact Hb|]. cbn in *.
    destruct (content m) as [t|bs|trs]; [apply IH; [lia|assumption..] | | contradiction].
    destruct (List.filter dispatched bs) as [|b0 invoked]; [apply IH; [lia|assumption..]|].
    destruct rest as [|r rest']; [contradiction|]. cbn in *.
    destruct Ha as [Hr Hrest]. split; [exact Hr|]. apply IH; [lia|assumption..].
Qed.

Lemma paired_app (a b : list Message) : paired a -> paired b -> paired (a ++ b).
Proof. apply (paired_app_bounded (length a)). lia. Qed.

Lemma answers_nil_r (trs : list ToolResult) : answers trs [] -> trs = [].
Proof. unfold answers. destruct trs; [reflexivity | discriminate]. Qed.

Lemma answers_nil_l (bs : list ContentBlock) : answers [] bs -> bs = [].
Proof. unfold answers. destruct bs; [reflexivity | discriminate]. Qed.

Lemma paired_round (blocks : list ContentBlock) (trs : list ToolResult) :
  answers trs (List.filter dispatched blocks) ->
  paired (mkMessage "assistant" (Blocks blocks)
            :: match trs with [] => [] | _ => [mkMessage "user" (Results trs)] end).
Proof.
  intros Hans. unfold paired. cbn.
  destruct (List.filter dispatched blocks) as [|b0 invoked] eqn:Hf.
  - apply answers_nil_r in Hans. subst trs. exact I.
  - destruct trs as [|r trs]; [apply answers_nil_l in Hans; discriminate|].
    cbn. split; [exact Hans | exact I].
Qed.

Lemma paired_ids_bounded (n : nat) (conversation : list Message) :
  length conversation <= n -> paired conversation ->
  answers (results conversation) (dispatched_invocations conversation).
Proof.
  unfold paired, answers, results, dispatched_invocations.
  revert conversation. induction n as [|n IH]; intros conv Hlen Hp.
  - destruct conv; [reflexivity | cbn in Hlen; lia].
  - destruct conv as [|m rest]; [reflexivity|]. cbn in *.
    unfold results_of at 1, dispatched_of at 1.
    destruct (content m) as [t|bs|trs]; [apply IH; [lia|assumption] | | contradiction].
    destruct (List.filter dispatched bs) as [|b0 invoked]; [apply IH; [lia|assumption]|].
    destruct rest as [|r rest']; [contradiction|]. cbn in *.
    destruct Hp as [Hr Hrest]. unfold results_of at 1, dispatched_of at 1.
    destruct (content r) as [t|bs'|trs]; try contradiction.
    rewrite !map_app. cbn. rewrite (IH rest' ltac:(lia) Hrest).
    unfold answers in Hr. rewrite Hr. reflexivity.
Qed.

Lemma coherent_initial (w : World) : coherent (initial w).
Proof. repeat split; constructor. Qed.

Lemma coherent_on_line (line : string) (s : State) :
  phase s = Idle -> coherent s -> coherent (on_line line s).
Proof.
  intros Hp (Hm & Hs & _). unfold on_line.
  destruct (_ || _); [unfold coherent; cbn; auto|].
  destruct (String.eqb _ "/c"); [unfold coherent, paired; cbn; auto|].
  destruct (negb _); [unfold coherent; rewrite Hp; auto|].
  unfold coherent; cbn. repeat split; [|assumption].
  apply paired_app; [assumption | exact I].
Qed.

Lemma coherent_on_block blocks rest trs (s : State) :
  phase s = Dispatching blocks rest trs -> coherent s ->
  coherent (on_block cfg blocks rest trs s).
Proof.
  intros Hp (Hm & Hs & Hd). rewrite Hp in Hd. destruct Hd as (visited & Hb & Hans).
  unfold on_block. destruct rest as [|block rest'].
  - rewrite app_nil_r in Hb. subst visited.
    pose proof (paired_round blocks trs Hans) as Hround.
    destruct trs as [|r trs]; repeat split; cbn; try assumption.
    + apply paired_app; assumption.
    + rewrite <- app_assoc. apply paired_app; assumption.
  - destruct (dispatched block) eqn:Hdis.
    2:{ unfold coherent; cbn. repeat split; try assumption.
        exists (visited ++ [block]). split; [now rewrite <- app_assoc|].
        rewrite List.filter_app. cbn. rewrite Hdis. now rewrite app_nil_r. }
    destruct (block_name block) as [name|] eqn:Hn;
      [|unfold dispatched in Hdis; rewrite Hn in Hdis; cbn in Hdis;
        rewrite andb_false_r in Hdis; discriminate].
    destruct (block_input block) as [input|] eqn:Hi;
      [|unfold dispatched in Hdis; rewrite Hi in Hdis; cbn in Hdis;
        rewrite andb_false_r in Hdis; discriminate].
    destruct (block_id block) as [id|] eqn:Hid;
      [|unfold dispatched in Hdis; rewrite Hid in Hdis; cbn in Hdis;
        rewrite andb_false_r in Hdis; discriminate].
    destruct (runTool cfg name input (world s)) as [w [result|e]];
      unfold coherent; cbn; repeat split; try assumption.
    exists (visited ++ [block]). split; [now rewrite <- app_assoc|].
    rewrite List.filter_app. cbn. rewrite Hdis. unfold answers in *.
    rewrite !map_app, Hans. cbn. now rewrite Hid.
Qed.

Lemma coherent_step (s : State) (e : Event) : coherent s -> coherent (step cfg s e).
Proof.
  intros Hc. pose proof Hc as (Hm & Hs & Hd). unfold step.
  destruct (phase s) eqn:Hp; destruct e as [line| | |r|]; try exact Hc;
    try (repeat split; cbn; try rewrite ?Hp; assumption).
  - now apply coherent_on_line.
  - unfold on_loop_test. destruct (stopRequested s); repeat split; cbn; try assumption.
    constructor; assumption.
  - destruct r as [response|err]; [|repeat split; assumption].
    cbn. destruct (response_usage response); repeat split; cbn; try assumption;
      exists []; split; reflexivity.
  - now apply coherent_on_block.
Qed.

Lemma coherent_run (events : list Event) (s : State) :
  coherent s -> coherent (run cfg s events).
Proof.
  revert s. induction events as [|e events IH]; intros s Hc; [exact Hc|].
  cbn. apply IH. now apply coherent_step.
Qed.

(** C1, as the code has it: in every state of every session the
    conversation is paired (each assistant turn with dispatched
    invocations is followed at once by the turn of their results, one per
    invocation, in order and under its identifier); so was every
    conversation handed to the transport; and over the whole conversation
    the results answer the dispatched invocations one for one.  The
    invocations [main] dispatches are the [tool_use] blocks with a
    non-empty name, an input and a non-empty identifier. *)
Theorem dispatched_invocations_answered (w : World) (events : list Event) :
  paired (messages (run cfg (initial w) events))
  /\ Forall paired (sent (run cfg (initial w) events))
  /\ answers (results (messages (run cfg (initial w) events)))
             (dispatched_invocations (messages (run cfg (initial w) events)))
  /\ length (dispatched_invocations (messages (run cfg (initial w) events)))
     = length (results (messages (run cfg (initial w) events))).
Proof.
  destruct (coherent_run events (initial w) (coherent_initial w)) as (Hm & Hs & _).
  pose proof (paired_ids_bounded _ _ (le_n _) Hm) as Hans.
  repeat split; try assumption.
  unfold answers in Hans. apply (f_equal (@length _)) in Hans.
  rewrite !length_map in Hans. now symmetry.
Qed.

End Pairing.

(** C1 as stated fails: an invocation that carries an empty identifier is
    not dispatched, and the conversation keeps it without a result. *)
Lemma unidentified_invocation_unanswered :
  ~ every_invocation_answered
      (messages (Sim.session Sim.empty
                   [Line "list files"; Resume; Settled Sim.asks_list_unidentified;
                    Resume; Resume])).
Proof. intros Hclaim. vm_compute in Hclaim. discriminate Hclaim. Qed.

(** ** [edit] on an ambiguous replacement *)

Section Occurrences.

Lemma drop_nil (k : nat) : Str.drop k "" = "".
Proof. now destruct k. Qed.

Lemma occurrences_skip (old : string) (k : nat) (s : string) :
  occurrences_from old k s = occurrences_from old 0 (Str.drop k s).
Proof.
  revert k. induction s as [|c s IH]; intros k.
  - now rewrite drop_nil.
  - destruct k as [|k]; [reflexivity|]. cbn [occurrences_from Str.drop]. apply IH.
Qed.

Lemma occurrences_cons (old : string) (c : ascii) (s : string) :
  occurrences old (String c s)
  = if String.prefix old (String c s)
    then S (occurrences old (Str.drop (String.length old - 1) s))
    else occurrences old s.
Proof.
  unfold occurrences. cbn [occurrences_from].
  destruct (String.prefix old (String c s)); [|reflexivity].
  now rewrite occurrences_skip.
Qed.

Lemma cut_occurrences (old s : string) :
  old <> "" ->
  match Str.cut old s with
  | None => occurrences old s = 0
  | Some (_, b) => occurrences old s = S (occurrences old b)
  end.
Proof.
  intros Hne. induction s as [|c s IH].
  - now rewrite cut_nil_None.
  - rewrite cut_cons, occurrences_cons.
    destruct (String.prefix old (String c s)).
    + destruct old as [|o old]; [congruence|]. cbn. now rewrite Nat.sub_0_r.
    + destruct (Str.cut old s) as [[a b]|]; exact IH.
Qed.

(** [text.split(old).length - 1] counts the occurrences of [old]. *)
Lemma split_counts_occurrences (old s : string) :
  old <> "" -> length (Str.split old s) = S (occurrences old s).
Proof.
  intros Hne. remember (String.length s) as n eqn:Hn. revert s Hn.
  induction n as [n IH] using lt_wf_ind. intros s ->.
  rewrite split_unfold by assumption. pose proof (cut_occurrences old s Hne) as Hocc.
  destruct (Str.cut old s) as [[a b]|] eqn:Hcut.
  - cbn [length]. rewrite Hocc. f_equal. apply (IH (String.length b)); [|reflexivity].
    now apply (cut_shorter old s a b).
  - now rewrite Hocc.
Qed.

Lemma occurs_includes (old s : string) :
  old <> "" -> 0 < occurrences old s -> Str.includes s old = true.
Proof.
  intros Hne Hpos. unfold Str.includes. pose proof (cut_occurrences old s Hne) as Hocc.
  destruct (Str.cut old s) as [[a b]|]; [reflexivity | lia].
Qed.

End Occurrences.

Section Edit.
Context `{Runtime}.

(** C7: [edit] without [all], on a file in which [old] occurs three times,
    returns the literal error text and leaves the world as it found it. *)
Theorem edit_three_occurrences (args : gmap string JsValue) (w : World)
        (path : JsValue) (text old : string) :
  getPath args w = (w, Return path) ->
  Bun_file_text w path = inr text ->
  arg args "old" = JStr old ->
  old <> "" ->
  occurrences old text = 3 ->
  ToBoolean (arg args "all") = false ->
  edit_tool args w = (w, Return "error: old_string appears 3 times, use all=true").
Proof.
  intros Hpath Htext Hold Hne Hocc Hall.
  unfold edit_tool, bind, observe. rewrite Hpath, Htext, Hold, Hall.
  cbn [ToString String_split].
  rewrite (occurs_includes old text Hne) by lia.
  rewrite (split_counts_occurrences old text Hne), Hocc.
  reflexivity.
Qed.

End Edit.

Lemma edit_three_occurrences_witness :
  occurrences "x" "x-x-x" = 3
  /\ edit_tool (H := Sim.runtime)
       {[ "path" := JStr "a.txt"; "old" := JStr "x"; "new" := JStr "y" ]}
       (Sim.mkWorld {[ "a.txt" := "x-x-x" ]} ∅)
     = (Sim.mkWorld {[ "a.txt" := "x-x-x" ]} ∅,
        Return "error: old_string appears 3 times, use all=true").
Proof.
  split; [reflexivity|].
  apply (edit_three_occurrences (H := Sim.runtime) _ _ (JStr "a.txt") "x-x-x" "x").
  - vm_compute. reflexivity.
  - vm_compute. reflexivity.
  - vm_compute. reflexivity.
  - discriminate.
  - reflexivity.
  - vm_compute. reflexivity.
Defined.

(** With [all] the same call rewrites the file. *)
Example edit_all :
  edit_tool (H := Sim.runtime)
    {[ "path" := JStr "a.txt"; "old" := JStr "x"; "new" := JStr "y"; "all" := JBool true ]}
    (Sim.mkWorld {[ "a.txt" := "x-x-x" ]} ∅)
  = (Sim.mkWorld {[ "a.txt" := "y-y-y" ]} ∅, Return "ok").
Proof. vm_compute. reflexivity. Qed.

(** Occurrences that overlap are counted once: [aa] in [aaaa] counts two. *)
Example edit_overlapping :
  edit_tool (H := Sim.runtime)
    {[ "path" := JStr "a.txt"; "old" := JStr "aa"; "new" := JStr "b" ]}
    (Sim.mkWorld {[ "a.txt" := "aaaa" ]} ∅)
  = (Sim.mkWorld {[ "a.txt" := "aaaa" ]} ∅,
     Return "error: old_string appears 2 times, use all=true").
Proof. vm_compute. reflexivity. Qed.

(** ** [read] and [MAX_FILE_SIZE] *)

Section Read.
Context `{Runtime}.

Lemma Array_slice_all {A} (l : list A) : Array_slice l (JNum (Int 0)) JUndefined = l.
Proof. unfold Array_slice, slice_index. cbn. rewrite Nat.sub_0_r. apply firstn_all. Qed.

Lemma read_whole_file (args : gmap string JsValue) (w : World) (path : JsValue)
      (text : string) :
  getPath args w = (w, Return path) ->
  Bun_file_text w path = inr text ->
  arg args "offset" = JUndefined ->
  arg args "limit" = JUndefined ->
  read_tool args w = (w, Return (Str.join LF (imap numbered (Str.split LF text)))).
Proof.
  intros Hpath Htext Hoff Hlim. unfold read_tool, bind, observe, ret.
  rewrite Hpath, Htext, Hoff, Hlim. cbn [js_nullish ToBoolean]. rewrite Array_slice_all.
  reflexivity.
Qed.

(** C10: [runTool] gives the same result whatever [MAX_FILE_SIZE] is, for
    every name, argument map and world; and [read] called without [offset]
    and [limit] returns every line of the file, numbered from 1, whatever
    the length of the text: the lines it numbers join back to the whole
    text. *)
Theorem MAX_FILE_SIZE_not_enforced (cfg : Config) (limit : Number) :
  (forall name args w,
      runTool (with_MAX_FILE_SIZE limit cfg) name args w = runTool cfg name args w)
  /\ (forall args w path text,
         getPath args w = (w, Return path) ->
         Bun_file_text w path = inr text ->
         arg args "offset" = JUndefined ->
         arg args "limit" = JUndefined ->
         runTool (with_MAX_FILE_SIZE limit cfg) "read" args w
         = (w, Return (Str.join LF (imap numbered (Str.split LF text))))
         /\ length (imap numbered (Str.split LF text)) = length (Str.split LF text)
         /\ Str.join LF (Str.split LF text) = text).
Proof.
  split; [reflexivity|].
  intros args w path text Hpath Htext Hoff Hlim. split; [|split].
  - rewrite (runTool_own _ "read" args w (mkTool "Read file with line numbers"
               [("path", "string"); ("offset", "number?"); ("limit", "number?")] read_tool))
      by reflexivity.
    cbn [handler]. now rewrite (read_whole_file args w path text).
  - apply length_imap.
  - change LF with (String NL ""). rewrite split_char. apply join_split_at.
Qed.

End Read.

Lemma MAX_FILE_SIZE_not_enforced_witness :
  runTool (H := Sim.runtime) (with_MAX_FILE_SIZE (Int 1) Sim.cfg) "read" Sim.path_only
    (Sim.one_file ("first" ++ LF ++ "second"))
  = (Sim.one_file ("first" ++ LF ++ "second"),
     Return ("   1| first" ++ LF ++ "   2| second")%string).
Proof.
  destruct (MAX_FILE_SIZE_not_enforced (H := Sim.runtime) Sim.cfg (Int 1)) as [_ Hread].
  destruct (Hread Sim.path_only (Sim.one_file ("first" ++ LF ++ "second"))
                  (JStr "a.txt") ("first" ++ LF ++ "second")%string
                  eq_refl eq_refl eq_refl eq_refl)
    as [Hresult _].
  exact Hresult.
Defined.

(** ** The transcript of [exec] *)

Section Streams.
Context `{Runtime}.

Lemma readStreams_acc (events : list ReadEvent) (out err : Reader) (output : list string) :
  readStreams events out err output = output ++ readStreams events out err [].
Proof.
  revert out err output. induction events as [|e events IH]; intros out err output.
  - cbn. now rewrite app_nil_r.
  - destruct e as [[] value|[]]; cbn [readStreams].
    + destruct (ended out); [apply IH|].
      destruct (TextDecoder_decode (decoder out) value) as [d text].
      rewrite IH. rewrite (IH _ _ ([] ++ _)). now rewrite app_assoc.
    + destruct (ended err); [apply IH|].
      destruct (TextDecoder_decode (decoder err) value) as [d text].
      rewrite IH. rewrite (IH _ _ ([] ++ _)). now rewrite app_assoc.
    + apply IH.
    + apply IH.
Qed.

Lemma prefix_other (ch ch' : Channel) (line : string) :
  String.prefix (prefix_of ch) (prefix_of ch' ++ line) = channel_eqb ch ch'.
Proof. destruct ch, ch'; try apply prefix_append; reflexivity. Qed.

Lemma view_chunk (ch ch' : Channel) (text : string) :
  channel_view ch (chunk_lines (prefix_of ch') text)
  = if channel_eqb ch ch' then chunk_lines (prefix_of ch) text else [].
Proof.
  unfold channel_view, chunk_lines.
  induction (List.filter (fun l => Str.nonempty l) (Str.split LF text)) as [|l ls IH].
  - now destruct (channel_eqb ch ch').
  - cbn [map List.filter]. rewrite prefix_other, IH.
    destruct ch, ch'; reflexivity.
Qed.

Lemma channel_view_app (ch : Channel) (a b : list string) :
  channel_view ch (a ++ b) = channel_view ch a ++ channel_view ch b.
Proof. apply List.filter_app. Qed.

(** Within one channel the transcript keeps the order of arrival. *)
Lemma view_readStreams (ch : Channel) (events : list ReadEvent) (out err : Reader) :
  channel_view ch (readStreams events out err [])
  = flat_map (chunk_lines (prefix_of ch)) (decoded ch events (reader_of ch out err)).
Proof.
  revert out err. induction events as [|e events IH]; intros out err; [reflexivity|].
  destruct e as [[] value|[]]; cbn [readStreams decoded].
  - destruct (ended out) eqn:Hend.
    + rewrite IH. destruct ch; cbn [channel_eqb reader_of]; [now rewrite Hend | reflexivity].
    + destruct (TextDecoder_decode (decoder out) value) as [d text] eqn:Hdec.
      rewrite app_nil_l, readStreams_acc, channel_view_app, view_chunk, IH.
      destruct ch; cbn [channel_eqb reader_of]; [|reflexivity].
      now rewrite Hend, Hdec.
  - destruct (ended err) eqn:Hend.
    + rewrite IH. destruct ch; cbn [channel_eqb reader_of]; [reflexivity | now rewrite Hend].
    + destruct (TextDecoder_decode (decoder err) value) as [d text] eqn:Hdec.
      rewrite app_nil_l, readStreams_acc, channel_view_app, view_chunk, IH.
      destruct ch; cbn [channel_eqb reader_of]; [reflexivity|].
      now rewrite Hend, Hdec.
  - rewrite IH. destruct ch; reflexivity.
  - rewrite IH. destruct ch; reflexivity.
Qed.

Lemma nonempty_lines_split_at (text : string) :
  nonempty_lines text = List.filter (fun l => Str.nonempty l) (split_at NL text).
Proof. unfold nonempty_lines. change LF with (String NL ""). now rewrite split_char. Qed.

Lemma nonempty_lines_app (t u : string) :
  line_aligned t -> nonempty_lines (t ++ u) = nonempty_lines t ++ nonempty_lines u.
Proof.
  intros [->|[body ->]]; [reflexivity|].
  rewrite !nonempty_lines_split_at. rewrite append_assoc.
  change (LF ++ u)%string with (String NL u). change LF with (String NL "").
  rewrite !split_at_app, !List.filter_app. cbn. now rewrite app_nil_r.
Qed.

Lemma aligned_chunks (p : string) (texts : list string) :
  Forall line_aligned texts ->
  flat_map (chunk_lines p) texts
  = map (fun line => (p ++ line)%string) (nonempty_lines (stream texts)).
Proof.
  induction texts as [|t texts IH]; intros Hall; [reflexivity|].
  inversion Hall as [|? ? Ht Hrest]; subst. cbn [flat_map stream fold_right].
  rewrite (nonempty_lines_app _ _ Ht), map_app, (IH Hrest). reflexivity.
Qed.

(** C5, as the code has it: when every chunk of a channel ends where a
    line ends, the entries the transcript holds for that channel are the
    non-empty lines of the channel's decoded stream, each once, in order,
    under the channel's prefix. *)
Theorem lines_of_aligned_chunks (events : list ReadEvent) (ch : Channel) :
  Forall line_aligned (decoded ch events fresh) ->
  channel_view ch (transcript events)
  = map (fun line => (prefix_of ch ++ line)%string)
        (nonempty_lines (stream (decoded ch events fresh))).
Proof.
  intros Hall. unfold transcript. rewrite view_readStreams.
  replace (reader_of ch fresh fresh) with fresh by now destruct ch.
  now apply aligned_chunks.
Qed.

End Streams.

Lemma lines_of_aligned_chunks_witness :
  channel_view Stdout (transcript (H := Sim.runtime) Sim.aligned_reads)
  = ["[stdout] a"; "[stdout] b"; "[stdout] c"].
Proof.
  rewrite (lines_of_aligned_chunks (H := Sim.runtime) Sim.aligned_reads Stdout).
  - vm_compute. reflexivity.
  - change (decoded (H := Sim.runtime) Stdout Sim.aligned_reads fresh)
      with [("a" ++ LF ++ "b" ++ LF)%string; ("c" ++ LF)%string].
    constructor; [right; exists ("a" ++ LF ++ "b")%string; reflexivity|].
    constructor; [right; exists "c"; reflexivity|]. constructor.
Defined.

Example transcript_interleaved :
  transcript (H := Sim.runtime) Sim.aligned_reads
  = ["[stdout] a"; "[stdout] b"; "[stderr] oops"; "[stdout] c"].
Proof. vm_compute. reflexivity. Qed.

Example transcript_straddling :
  transcript (H := Sim.runtime) Sim.straddling_reads = ["[stdout] hel"; "[stdout] lo"].
Proof. vm_compute. reflexivity. Qed.

Example transcript_blank_line :
  transcript (H := Sim.runtime) Sim.blank_line_reads = ["[stdout] a"; "[stdout] b"].
Proof. vm_compute. reflexivity. Qed.

(** C5 as stated fails twice over: the line [hello] that arrives in two
    chunks is entered as two fragments, and a blank line is not entered
    at all. *)
Lemma complete_lines_not_all_appended :
  ~ each_complete_line_appended (H := Sim.runtime) Sim.straddling_reads
  /\ ~ each_complete_line_appended (H := Sim.runtime) Sim.blank_line_reads.
Proof.
  split; intros Hclaim.
  - specialize (Hclaim Stdout "hello" ltac:(vm_compute; left; reflexivity)).
    vm_compute in Hclaim. destruct Hclaim as [Heq|[Heq|[]]]; discriminate Heq.
  - specialize (Hclaim Stdout "" ltac:(vm_compute; right; left; reflexivity)).
    vm_compute in Hclaim. destruct Hclaim as [Heq|[Heq|[]]]; discriminate Heq.
Qed.

(** ** The result of [exec] *)

Section ExecResult.
Context `{Runtime}.
Variable cfg : Config.

Lemma chunk_lines_tagged (ch : Channel) (text : string) :
  Forall tagged (chunk_lines (prefix_of ch) text).
Proof.
  unfold chunk_lines. change LF with (String NL ""). rewrite split_char.
  pose proof (split_at_pieces NL text) as Hpieces.
  induction Hpieces as [|piece pieces Hpiece _ IH]; [constructor|].
  cbn [List.filter]. destruct (Str.nonempty piece) eqn:Hne; [|exact IH].
  cbn [map]. constructor; [|exact IH]. now exists ch, piece.
Qed.

Lemma readStreams_tagged (events : list ReadEvent) (out err : Reader) (output : list string) :
  Forall tagged output -> Forall tagged (readStreams events out err output).
Proof.
  revert out err output. induction events as [|e events IH]; intros out err output Hall;
    [exact Hall|].
  destruct e as [[] value|[]]; cbn [readStreams]; try now apply IH.
  - destruct (ended out); [now apply IH|].
    destruct (TextDecoder_decode (decoder out) value) as [d text].
    apply IH. apply Forall_app. split; [exact Hall | apply chunk_lines_tagged].
  - destruct (ended err); [now apply IH|].
    destruct (TextDecoder_decode (decoder err) value) as [d text].
    apply IH. apply Forall_app. split; [exact Hall | apply chunk_lines_tagged].
Qed.

Lemma transcript_tagged (events : list ReadEvent) : Forall tagged (transcript events).
Proof. apply readStreams_tagged. constructor. Qed.

Lemma tagged_entry (entry : string) :
  tagged entry ->
  mentions NL entry = false /\ is_marker entry = false /\ Str.nonempty entry = true.
Proof.
  intros (ch & line & -> & Hclean & Hne). rewrite mentions_append, Hclean.
  destruct ch; repeat split; reflexivity.
Qed.

Lemma join_nonempty (sep x : string) (l : list string) :
  Str.nonempty x = true -> Str.nonempty (Str.join sep (x :: l)) = true.
Proof.
  intros Hx. destruct x as [|c x]; [discriminate|].
  rewrite join_cons_char. reflexivity.
Qed.

Lemma append_not_empty (body marker : string) : (body ++ LF ++ marker)%string <> "".
Proof. destruct body; discriminate. Qed.

(** C6: when the subprocess was spawned, [exec] returns a body, a line
    feed and one status line.  The result is not empty; the body is the
    sentinel [(no output)] when the transcript is empty and the transcript
    joined by line feeds otherwise; the status line is the exit line or,
    if the timer fired, the timeout line with the bound; and no line of the
    body is a status line. *)
Theorem exec_result_shape (args : gmap string JsValue) (w w' : World) (run : ProcRun) :
  Bun_spawn w (map JStr (SHELL cfg) ++ [arg args "command"]) (timeoutMs args) = (w', inr run) ->
  exists body marker,
    exec_tool cfg args w = (w', Return (body ++ LF ++ marker)%string)
    /\ (body ++ LF ++ marker)%string <> ""
    /\ body = match transcript (reads run) with
              | [] => "(no output)"
              | output => Str.join LF output
              end
    /\ marker = (if timer_fired run
                 then "[TIMEOUT after " ++ Number_toString (timeoutMs args) ++ "ms]"
                 else "[exit: " ++ exitCode_text (exitCode run) ++ "]")%string
    /\ is_marker marker = true
    /\ Forall (fun line => is_marker line = false) (Str.split LF body).
Proof.
  intros Hspawn.
  exists (match transcript (reads run) with
          | [] => "(no output)"
          | output => Str.join LF output
          end).
  exists (if timer_fired run
          then "[TIMEOUT after " ++ Number_toString (timeoutMs args) ++ "ms]"
          else "[exit: " ++ exitCode_text (exitCode run) ++ "]")%string.
  pose proof (transcript_tagged (reads run)) as Htagged.
  split; [|split; [apply append_not_empty|split; [reflexivity|split; [reflexivity|split]]]].
  - unfold exec_tool, bind, ret. rewrite Hspawn. unfold exec_result.
    fold fresh. fold (transcript (reads run)).
    destruct (transcript (reads run)) as [|entry output] eqn:Hout.
    + destruct (timer_fired run); reflexivity.
    + inversion Htagged as [|? ? Hentry _]; subst.
      apply tagged_entry in Hentry as (_ & _ & Hne).
      unfold or_else. rewrite (join_nonempty LF entry output Hne).
      destruct (timer_fired run); reflexivity.
  - destruct (timer_fired run).
    + unfold is_marker. rewrite (prefix_append "[TIMEOUT after "). apply orb_true_r.
    + unfold is_marker. now rewrite (prefix_append "[exit: ").
  - destruct (transcript (reads run)) as [|entry output] eqn:Hout.
    + vm_compute. constructor; [reflexivity | constructor].
    + change LF with (String NL ""). rewrite split_char, split_at_join.
      * eapply List.Forall_impl; [|exact Htagged]. intros e He. now apply tagged_entry in He.
      * discriminate.
      * eapply List.Forall_impl; [|exact Htagged]. intros e He. now apply tagged_entry in He.
Qed.

End ExecResult.

Lemma exec_result_shape_witness :
  exec_tool (H := Sim.runtime) Sim.cfg Sim.make_args Sim.with_make
  = (Sim.with_make,
     Return ("[stdout] a" ++ LF ++ "[stdout] b" ++ LF ++ "[stderr] oops" ++ LF
             ++ "[stdout] c" ++ LF ++ "[exit: 2]")%string).
Proof.
  destruct (exec_result_shape (H := Sim.runtime) Sim.cfg Sim.make_args Sim.with_make
              Sim.with_make (mkProcRun Sim.aligned_reads false (Some 2%Z)) eq_refl)
    as (body & marker & Hexec & _ & Hbody & Hmarker & _).
  rewrite Hexec, Hbody, Hmarker. vm_compute. reflexivity.
Defined.

(** The scenario of a timeout of 50: the bound is 1000, and a command the
    timer kills before it prints ends in the timeout line. *)
Example exec_timeout_50 :
  exec_tool (H := Sim.runtime) Sim.cfg
    {[ "command" := JStr "sleep 5"; "timeout" := JNum (Int 50) ]}
    (Sim.mkWorld ∅ {[ "sleep 5" := mkProcRun [] true None ]})
  = (Sim.mkWorld ∅ {[ "sleep 5" := mkProcRun [] true None ]},
     Return ("(no output)" ++ LF ++ "[TIMEOUT after 1000ms]")%string).
Proof. vm_compute. reflexivity. Qed.

(** ** The other tools, run *)

Example write_then_read :
  let '(w, _) := write_tool (H := Sim.runtime)
                   {[ "path" := JStr "a.txt"; "content" := JStr "new" ]} Sim.empty in
  read_tool (H := Sim.runtime) Sim.path_only w = (Sim.one_file "new", Return "   1| new").
Proof. vm_compute. reflexivity. Qed.

Example read_offset_limit :
  read_tool (H := Sim.runtime)
    {[ "path" := JStr "a.txt"; "offset" := JNum (Int 1); "limit" := JNum (Int 1) ]}
    (Sim.one_file ("x" ++ LF ++ "y" ++ LF ++ "z"))
  = (Sim.one_file ("x" ++ LF ++ "y" ++ LF ++ "z"), Return "   2| y").
Proof. vm_compute. reflexivity. Qed.

Example edit_once :
  edit_tool (H := Sim.runtime)
    {[ "path" := JStr "a.txt"; "old" := JStr "b"; "new" := JStr "[$&]" ]}
    (Sim.one_file "abc")
  = (Sim.one_file "a[b]c", Return "ok").
Proof. vm_compute. reflexivity. Qed.

Example edit_not_found :
  edit_tool (H := Sim.runtime)
    {[ "path" := JStr "a.txt"; "old" := JStr "z"; "new" := JStr "y" ]}
    (Sim.one_file "abc")
  = (Sim.one_file "abc", Return "error: old_string not found").
Proof. vm_compute. reflexivity. Qed.

Example grep_hits :
  grep_tool (H := Sim.runtime) Sim.cfg {[ "pattern" := JStr "b" ]}
    (Sim.one_file ("abc  " ++ LF ++ "xyz" ++ LF ++ "b"))
  = (Sim.one_file ("abc  " ++ LF ++ "xyz" ++ LF ++ "b"),
     Return ("a.txt:1:abc" ++ LF ++ "a.txt:3:b")%string).
Proof. vm_compute. reflexivity. Qed.

Example grep_limit :
  grep_tool (H := Sim.runtime)
    (mkConfig "" "" (Int 1) (Int 0) false) {[ "pattern" := JStr "b" ]}
    (Sim.one_file ("abc" ++ LF ++ "xyz" ++ LF ++ "b"))
  = (Sim.one_file ("abc" ++ LF ++ "xyz" ++ LF ++ "b"), Return "a.txt:1:abc").
Proof. vm_compute. reflexivity. Qed.

Example glob_none :
  glob_tool (H := Sim.runtime) {[ "pattern" := JStr "*" ]} Sim.empty
  = (Sim.empty, Return "none").
Proof. vm_compute. reflexivity. Qed.

Example sort_newest_first :
  sort_by_mtime [("a", 1%Z); ("b", 3%Z); ("c", 1%Z); ("d", 2%Z)]
  = [("b", 3%Z); ("d", 2%Z); ("a", 1%Z); ("c", 1%Z)].
Proof. reflexivity. Qed.

Example move_file :
  move_tool (H := Sim.runtime) {[ "from" := JStr "a.txt"; "to" := JStr "b.txt" ]}
    (Sim.one_file "abc")
  = (Sim.mkWorld {[ "b.txt" := "abc" ]} ∅, Return "Moved: a.txt -> b.txt").
Proof. vm_compute. reflexivity. Qed.

Example delete_missing :
  delete_tool (H := Sim.runtime) {[ "path" := JStr "b.txt" ]} (Sim.one_file "abc")
  = (Sim.one_file "abc",
     Return "error: ENOENT: no such file or directory, open 'b.txt'").
Proof. vm_compute. reflexivity. Qed.

Example copy_file :
  copy_tool (H := Sim.runtime) {[ "from" := JStr "a.txt"; "to" := JStr "b.txt" ]}
    (Sim.one_file "abc")
  = (Sim.mkWorld {[ "a.txt" := "abc"; "b.txt" := "abc" ]} ∅, Return "Copied: a.txt -> b.txt").
Proof. vm_compute. reflexivity. Qed.

(** A directory below [node_modules] is skipped; [node_modules] itself,
    whose path ends without a separator, is listed. *)
Example listDir_recursive :
  listDir (H := Sim.runtime) true
    (Entries [ FileEntry "a.txt";
               DirEntry "node_modules" (Entries [DirEntry "x" (Entries [FileEntry "y"])]);
               DirEntry "src" (Entries [FileEntry "index.ts"]) ])
    (JStr ".") ""
  = Return ["a.txt"; "node_modules/"; "src/"; "  index.ts"].
Proof. vm_compute. reflexivity. Qed.

Example shouldIgnore_nested :
  shouldIgnore "/repo/node_modules/x/y" = true /\ shouldIgnore "./node_modules" = false.
Proof. split; reflexivity. Qed.

(** * Further properties *)

(** ** The session *)

Section SessionMore.
Context `{Runtime}.
Variable cfg : Config.

Lemma run_app (s : State) (a b : list Event) :
  run cfg s (a ++ b) = run cfg (run cfg s a) b.
Proof. unfold run. apply fold_left_app. Qed.

Lemma step_exited (s : State) (e : Event) : phase s = Exited -> step cfg s e = s.
Proof. intros Hp. unfold step. now rewrite Hp. Qed.

Lemma run_exited (s : State) (events : list Event) :
  phase s = Exited -> run cfg s events = s.
Proof.
  revert s. induction events as [|e events IH]; intros s Hp; [reflexivity|].
  cbn. rewrite (step_exited s e Hp). now apply IH.
Qed.

(** X1: Once [/q] or [exit] has been read at the prompt, nothing that arrives
    changes the session: no turn is appended, no tool runs and the
    transport is not called. *)
Theorem quit_is_final (s : State) (line : string) (events : list Event) :
  phase s = Idle ->
  Str.trim line = "/q" \/ Str.trim line = "exit" ->
  run cfg s (Line line :: events) = set_phase Exited s.
Proof.
  intros Hp Hquit. unfold run. cbn [fold_left].
  assert (Hstep : step cfg s (Line line) = set_phase Exited s).
  { unfold step. rewrite Hp. unfold on_line.
    destruct Hquit as [-> | ->]; reflexivity. }
  rewrite Hstep. now apply run_exited.
Qed.

Lemma step_request (s : State) (line : string) :
  phase s = Idle -> request line ->
  step cfg s (Line line) = set_phase LoopTest (set_stop false (push (user_turn line) s)).
Proof. intros Hp Hreq. unfold step. rewrite Hp. now apply on_line_request. Qed.

(** X2: A fault of the transport ends the request and rolls nothing back: the
    utterance stays in the conversation, the counters and the world are
    untouched, and the next request hands the transport both
    utterances. *)
Theorem transport_fault_keeps_turns (s : State) (first second : string) (e : JsError) :
  phase s = Idle -> request first -> request second ->
  phase (run cfg s [Line first; Resume; Settled (Throw e)]) = Idle
  /\ messages (run cfg s [Line first; Resume; Settled (Throw e)])
     = messages s ++ [user_turn first]
  /\ totalInputTokens (run cfg s [Line first; Resume; Settled (Throw e)]) = totalInputTokens s
  /\ totalOutputTokens (run cfg s [Line first; Resume; Settled (Throw e)]) = totalOutputTokens s
  /\ world (run cfg s [Line first; Resume; Settled (Throw e)]) = world s
  /\ sent (run cfg s [Line first; Resume; Settled (Throw e); Line second; Resume])
     = (messages s ++ [user_turn first; user_turn second])
         :: (messages s ++ [user_turn first]) :: sent s.
Proof.
  intros Hp Hfirst Hsecond. unfold run. cbn [fold_left].
  rewrite (step_request s first Hp Hfirst). cbn.
  rewrite (on_line_request second _ Hsecond). cbn.
  rewrite <- app_assoc. repeat split.
Qed.

(** X3: An interrupt that arrives at the prompt does not cancel the request
    that follows: the request lowers the flag before the loop tests it. *)
Theorem stale_interrupt_discarded (s : State) (line : string) :
  phase s = Idle -> request line ->
  phase (run cfg s [SIGINT; Line line; Resume]) = AwaitingAPI
  /\ stopRequested (run cfg s [SIGINT; Line line; Resume]) = false
  /\ sent (run cfg s [SIGINT; Line line; Resume])
     = (messages s ++ [user_turn line]) :: sent s.
Proof.
  intros Hp Hreq. unfold run. cbn [fold_left].
  assert (Hint : step cfg s SIGINT = set_stop true s) by (unfold step; now rewrite Hp).
  rewrite Hint, (step_request (set_stop true s) line Hp Hreq). cbn. repeat split.
Qed.

Lemma step_appends (s : State) (e : Event) :
  (forall line, e = Line line -> Str.trim line <> "/c") ->
  exists suffix, messages (step cfg s e) = messages s ++ suffix.
Proof.
  intros Hclear. unfold step.
  destruct (phase s) eqn:Hp; destruct e as [line| | |r|];
    try (exists []; cbn; now rewrite app_nil_r).
  - destruct (trim_cases line) as [Hreq|[Hq|[He|[Hc|Hn]]]].
    + rewrite (on_line_request line s Hreq). now exists [user_turn line].
    + unfold on_line. rewrite Hq. exists []. cbn. now rewrite app_nil_r.
    + unfold on_line. rewrite He. exists []. cbn. now rewrite app_nil_r.
    + now destruct (Hclear line eq_refl).
    + unfold on_line. rewrite Hn. exists []. cbn. now rewrite app_nil_r.
  - unfold on_loop_test. destruct (stopRequested s); exists []; cbn; now rewrite app_nil_r.
  - destruct r as [response|err]; [|exists []; cbn; now rewrite app_nil_r].
    cbn. destruct (response_usage response); exists []; cbn; now rewrite app_nil_r.
  - unfold on_block. destruct rest as [|block rest'].
    + destruct toolResults as [|r trs].
      * now exists [mkMessage "assistant" (Blocks blocks)].
      * exists [mkMessage "assistant" (Blocks blocks);
                mkMessage "user" (Results (r :: trs))]. cbn. now rewrite <- app_assoc.
    + destruct (dispatched block); [|exists []; cbn; now rewrite app_nil_r].
      destruct (block_name block), (block_input block), (block_id block);
        try (exists []; cbn; now rewrite app_nil_r).
      destruct (runTool _ _ _ _) as [w [result|err]]; exists []; cbn; now rewrite app_nil_r.
Qed.

(** X4: The conversation is append-only: as long as the clear command is not
    read, every turn it holds stays where it is, whatever else happens. *)
Theorem conversation_append_only (s : State) (events : list Event) :
  never_clears events ->
  exists suffix, messages (run cfg s events) = messages s ++ suffix.
Proof.
  revert s. induction events as [|e events IH]; intros s Hall.
  - exists []. cbn. now rewrite app_nil_r.
  - inversion Hall as [|? ? He Hrest]; subst.
    destruct (step_appends s e He) as [first Hfirst].
    destruct (IH (step cfg s e) Hrest) as [more Hmore].
    exists (first ++ more).
    change (run cfg s (e :: events)) with (run cfg (step cfg s e) events).
    now rewrite Hmore, Hfirst, app_assoc.
Qed.

End SessionMore.

(** ** A round of the loop *)

Section RoundsMore.
Context `{Runtime}.
Variable cfg : Config.

Lemma runTool_returns (name : string) (args : gmap string JsValue) (w : World) :
  exists w' text, runTool cfg name args w = (w', Return text).
Proof.
  unfold runTool. apply try_catch_returns. intros e w1. now eexists _, _.
Qed.

Lemma round_from (rest : list ContentBlock) :
  forall (s : State) (blocks : list ContentBlock) (trs more : list ToolResult) (w' : World),
    phase s = Dispatching blocks rest trs ->
    dispatch_all cfg rest (world s) = (w', more) ->
    world (run cfg s (repeat Resume (S (length rest)))) = w'
    /\ messages (run cfg s (repeat Resume (S (length rest))))
       = messages s ++ round_turns blocks (trs ++ more)
    /\ phase (run cfg s (repeat Resume (S (length rest))))
       = match trs ++ more with [] => Idle | _ => LoopTest end
    /\ sent (run cfg s (repeat Resume (S (length rest)))) = sent s
    /\ stopRequested (run cfg s (repeat Resume (S (length rest)))) = stopRequested s
    /\ totalInputTokens (run cfg s (repeat Resume (S (length rest)))) = totalInputTokens s
    /\ totalOutputTokens (run cfg s (repeat Resume (S (length rest)))) = totalOutputTokens s.
Proof.
  induction rest as [|block rest IH]; intros s blocks trs more w' Hp Hall.
  - cbn in Hall. injection Hall as <- <-. rewrite app_nil_r.
    unfold run. cbn [length repeat fold_left]. unfold step. rewrite Hp. unfold on_block.
    destruct trs as [|r trs]; cbn; rewrite <- ?app_assoc; repeat split.
  - change (run cfg s (repeat Resume (S (length (block :: rest)))))
      with (run cfg (step cfg s Resume) (repeat Resume (S (length rest)))).
    cbn [dispatch_all] in Hall.
    assert (Hskip : dispatch_all cfg rest (world s) = (w', more) ->
                    step cfg s Resume = set_phase (Dispatching blocks rest trs) s ->
                    world (run cfg (step cfg s Resume) (repeat Resume (S (length rest)))) = w'
                    /\ messages (run cfg (step cfg s Resume) (repeat Resume (S (length rest))))
                       = messages s ++ round_turns blocks (trs ++ more)
                    /\ phase (run cfg (step cfg s Resume) (repeat Resume (S (length rest))))
                       = match trs ++ more with [] => Idle | _ => LoopTest end
                    /\ sent (run cfg (step cfg s Resume) (repeat Resume (S (length rest))))
                       = sent s
                    /\ stopRequested (run cfg (step cfg s Resume)
                                          (repeat Resume (S (length rest)))) = stopRequested s
                    /\ totalInputTokens (run cfg (step cfg s Resume)
                                             (repeat Resume (S (length rest))))
                       = totalInputTokens s
                    /\ totalOutputTokens (run cfg (step cfg s Resume)
                                              (repeat Resume (S (length rest))))
                       = totalOutputTokens s).
    { intros Hrest ->. apply (IH (set_phase (Dispatching blocks rest trs) s) blocks trs more w');
        [reflexivity | exact Hrest]. }
    assert (Hstep : step cfg s Resume = on_block cfg blocks (block :: rest) trs s)
      by (unfold step; now rewrite Hp).
    unfold on_block in Hstep.
    destruct (dispatched block); [|now apply Hskip].
    destruct (block_name block) as [name|]; [|now apply Hskip].
    destruct (block_input block) as [input|]; [|now apply Hskip].
    destruct (block_id block) as [id|]; [|now apply Hskip].
    destruct (runTool_returns name input (world s)) as (w1 & text & Hrun).
    rewrite Hrun in Hall, Hstep.
    destruct (dispatch_all cfg rest w1) as [w2 trs'] eqn:Hrest.
    injection Hall as <- <-. clear Hskip. rewrite Hstep.
    destruct (IH (mkState w1 (messages s) (totalInputTokens s) (totalOutputTokens s)
                          (stopRequested s)
                          (Dispatching blocks rest
                             (trs ++ [mkToolResult "tool_result" id text]))
                          (sent s))
                 blocks (trs ++ [mkToolResult "tool_result" id text]) trs' w2
                 eq_refl Hrest) as (Hw & Hm & Hph & Hs & Hst & Hin & Hout).
    rewrite <- app_assoc in Hm, Hph. repeat split; assumption.
Qed.

(** X5: One round of the loop, from the settled transport call to the next
    loop test: the tools a response invokes run one at a time in the order
    of its blocks, each in the world the one before it left; the round
    appends the assistant turn and, if a tool ran, one user turn with the
    results in the same order; the loop goes on exactly when a tool ran. *)
Theorem round_runs_tools_in_order (s : State) (response : APIResponse)
        (w' : World) (trs : list ToolResult) :
  phase s = AwaitingAPI ->
  dispatch_all cfg (blocks_of response) (world s) = (w', trs) ->
  world (run cfg s (Settled (Return response)
                      :: repeat Resume (S (length (blocks_of response))))) = w'
  /\ messages (run cfg s (Settled (Return response)
                            :: repeat Resume (S (length (blocks_of response)))))
     = messages s ++ round_turns (blocks_of response) trs
  /\ phase (run cfg s (Settled (Return response)
                         :: repeat Resume (S (length (blocks_of response)))))
     = match trs with [] => Idle | _ => LoopTest end
  /\ sent (run cfg s (Settled (Return response)
                        :: repeat Resume (S (length (blocks_of response))))) = sent s.
Proof.
  intros Hp Hall.
  change (run cfg s (Settled (Return response)
                       :: repeat Resume (S (length (blocks_of response)))))
    with (run cfg (step cfg s (Settled (Return response)))
              (repeat Resume (S (length (blocks_of response))))).
  assert (Hstep : step cfg s (Settled (Return response))
                  = on_settled (Return response) s) by (unfold step; now rewrite Hp).
  rewrite Hstep.
  destruct (round_from (blocks_of response) (on_settled (Return response) s)
              (blocks_of response) [] trs w') as (Hw & Hm & Hph & Hs & _).
  - unfold on_settled, blocks_of. destruct (response_usage response); reflexivity.
  - unfold on_settled. destruct (response_usage response); exact Hall.
  - repeat split; [exact Hw | | exact Hph |].
    + rewrite Hm. unfold on_settled. destruct (response_usage response); reflexivity.
    + rewrite Hs. unfold on_settled. destruct (response_usage response); reflexivity.
Qed.

Lemma dispatch_all_none (blocks : list ContentBlock) (w : World) :
  Forall (fun b => dispatched b = false) blocks -> dispatch_all cfg blocks w = (w, []).
Proof.
  induction 1 as [|b blocks Hb _ IH]; [reflexivity|]. cbn. now rewrite Hb.
Qed.

(** X6: A response that invokes no tool ends the request: once its blocks have
    been visited the session is back at the prompt with the assistant
    turn appended, the world as it was, and no further transport call. *)
Theorem response_without_invocations_ends_request (s : State) (response : APIResponse) :
  phase s = AwaitingAPI ->
  Forall (fun b => dispatched b = false) (blocks_of response) ->
  phase (run cfg s (Settled (Return response)
                      :: repeat Resume (S (length (blocks_of response))))) = Idle
  /\ messages (run cfg s (Settled (Return response)
                            :: repeat Resume (S (length (blocks_of response)))))
     = messages s ++ [mkMessage "assistant" (Blocks (blocks_of response))]
  /\ world (run cfg s (Settled (Return response)
                         :: repeat Resume (S (length (blocks_of response))))) = world s
  /\ sent (run cfg s (Settled (Return response)
                        :: repeat Resume (S (length (blocks_of response))))) = sent s.
Proof.
  intros Hp Hnone.
  change (run cfg s (Settled (Return response)
                       :: repeat Resume (S (length (blocks_of response)))))
    with (run cfg (step cfg s (Settled (Return response)))
              (repeat Resume (S (length (blocks_of response))))).
  assert (Hstep : step cfg s (Settled (Return response))
                  = on_settled (Return response) s) by (unfold step; now rewrite Hp).
  rewrite Hstep.
  destruct (round_from (blocks_of response) (on_settled (Return response) s)
              (blocks_of response) [] [] (world s)) as (Hw & Hm & Hph & Hs & _).
  - unfold on_settled, blocks_of. destruct (response_usage response); reflexivity.
  - rewrite <- (dispatch_all_none (blocks_of response) (world s) Hnone).
    unfold on_settled. destruct (response_usage response); reflexivity.
  - repeat split; [exact Hph | | |].
    + rewrite Hm. unfold on_settled. destruct (response_usage response); reflexivity.
    + rewrite Hw. reflexivity.
    + rewrite Hs. unfold on_settled. destruct (response_usage response); reflexivity.
Qed.

End RoundsMore.

(** ** Paths *)

Section PathsMore.
Context `{Runtime}.
Variable cfg : Config.

Lemma getPath_missing (args : gmap string JsValue) (w : World) :
  ToBoolean (arg args "path") = false ->
  ToBoolean (arg args "file_path") = false ->
  getPath args w = (w, Throw (Error "path parameter is required")).
Proof. intros Hp Hf. unfold getPath, js_or. now rewrite Hp, Hf. Qed.

(** X8: A call without a usable [path] or [file_path] touches nothing: [read],
    [write] and [edit] come back from [runTool] with the rendering of the
    fault, [list] and [delete] with its message alone. *)
Theorem missing_path_reported (args : gmap string JsValue) (w : World) :
  ToBoolean (arg args "path") = false ->
  ToBoolean (arg args "file_path") = false ->
  runTool cfg "read" args w = (w, Return "error: Error: path parameter is required")
  /\ runTool cfg "write" args w = (w, Return "error: Error: path parameter is required")
  /\ runTool cfg "edit" args w = (w, Return "error: Error: path parameter is required")
  /\ runTool cfg "list" args w = (w, Return "error: path parameter is required")
  /\ runTool cfg "delete" args w = (w, Return "error: path parameter is required").
Proof.
  intros Hp Hf. pose proof (getPath_missing args w Hp Hf) as Hget.
  repeat split; unfold runTool, try_catch; cbn [TOOLS_get own_property TOOLS String.eqb handler];
    cbn -[getPath];
    unfold read_tool, write_tool, edit_tool, list_tool, delete_tool, try_catch, bind;
    rewrite Hget; reflexivity.
Qed.

End PathsMore.

(** ** [read] with a window *)

Section ReadMore.
Context `{Runtime}.

Lemma firstn_min_length {A} (n : nat) (l : list A) :
  firstn (Nat.min n (length l)) l = firstn n l.
Proof.
  destruct (Nat.le_ge_cases n (length l)) as [Hle|Hge].
  - now rewrite Nat.min_l.
  - rewrite Nat.min_r by assumption. now rewrite firstn_all, firstn_all2.
Qed.

Lemma Array_slice_window {A} (l : list A) (o n : Z) :
  (0 <= o)%Z -> (0 <= n)%Z ->
  Array_slice l (JNum (Int o)) (JNum (Int (o + n))) = firstn (Z.to_nat n) (skipn (Z.to_nat o) l).
Proof.
  intros Ho Hn. unfold Array_slice, slice_index. cbn [ToNumber].
  destruct (o <? 0)%Z eqn:Eo; [lia|]. destruct (o + n <? 0)%Z eqn:En; [lia|].
  destruct (Nat.le_ge_cases (Z.to_nat o) (length l)) as [Hle|Hge].
  - rewrite (Nat.min_l (Z.to_nat o)) by assumption.
    replace (Nat.min (Z.to_nat (o + n)) (length l) - Z.to_nat o)
      with (Nat.min (Z.to_nat n) (length (skipn (Z.to_nat o) l)))
      by (rewrite length_skipn; lia).
    apply firstn_min_length.
  - rewrite (Nat.min_r (Z.to_nat o)) by assumption.
    rewrite !skipn_all2 by lia. now rewrite !firstn_nil.
Qed.

Lemma Array_slice_from {A} (l : list A) (o : Z) :
  (0 <= o)%Z -> Array_slice l (JNum (Int o)) JUndefined = skipn (Z.to_nat o) l.
Proof.
  intros Ho. unfold Array_slice, slice_index. cbn [ToNumber].
  destruct (o <? 0)%Z eqn:Eo; [lia|].
  destruct (Nat.le_ge_cases (Z.to_nat o) (length l)) as [Hle|Hge].
  - rewrite (Nat.min_l (Z.to_nat o)) by assumption.
    rewrite <- (length_skipn (Z.to_nat o) l). apply firstn_all.
  - rewrite (Nat.min_r (Z.to_nat o)) by assumption.
    rewrite !skipn_all2 by lia. now rewrite firstn_nil.
Qed.

Lemma Array_slice_last {A} (l : list A) (k : Z) :
  (0 < k <= Z.of_nat (length l))%Z ->
  Array_slice l (JNum (Int (- k))) JUndefined = skipn (length l - Z.to_nat k) l.
Proof.
  intros Hk. unfold Array_slice, slice_index. cbn [ToNumber].
  destruct (- k <? 0)%Z eqn:Ek; [|lia].
  replace (Z.to_nat (Z.max (Z.of_nat (length l) + - k) 0)) with (length l - Z.to_nat k) by lia.
  apply firstn_all2. rewrite length_skipn. lia.
Qed.

(** X9: [read] with an offset [o >= 0] and a limit [n > 0] returns the lines
    [o+1 .. o+n] of the file that exist, at most [n] of them, numbered by
    their place in the file; past the end of the file it returns
    nothing. *)
Theorem read_window (args : gmap string JsValue) (w : World) (path : JsValue)
        (text : string) (o n : Z) :
  getPath args w = (w, Return path) ->
  Bun_file_text w path = inr text ->
  arg args "offset" = JNum (Int o) -> (0 <= o)%Z ->
  arg args "limit" = JNum (Int n) -> (0 < n)%Z ->
  read_tool args w
  = (w, Return (Str.join LF
                  (imap (numbered_from o)
                        (firstn (Z.to_nat n) (skipn (Z.to_nat o) (Str.split LF text))))))
  /\ length (firstn (Z.to_nat n) (skipn (Z.to_nat o) (Str.split LF text))) <= Z.to_nat n
  /\ (length (Str.split LF text) <= Z.to_nat o -> read_tool args w = (w, Return "")).
Proof.
  intros Hpath Htext Hoff Ho Hlim Hn.
  assert (Hread : read_tool args w
                  = (w, Return (Str.join LF
                                  (imap (numbered_from o)
                                        (firstn (Z.to_nat n)
                                                (skipn (Z.to_nat o) (Str.split LF text))))))).
  { unfold read_tool, bind, observe, ret. rewrite Hpath, Htext, Hoff, Hlim.
    cbn [js_nullish ToBoolean js_add ToNumber Num.add].
    replace (negb (n =? 0)%Z) with true by (symmetry; apply negb_true_iff; lia).
    rewrite (Array_slice_window _ o n Ho) by lia. reflexivity. }
  split; [exact Hread|]. split.
  - rewrite length_firstn. lia.
  - intros Hpast. rewrite Hread, skipn_all2 by assumption. now rewrite firstn_nil.
Qed.

Lemma arg_delete_other (args : gmap string JsValue) (key other : string) :
  key <> other -> arg (base.delete key args) other = arg args other.
Proof. intros Hne. unfold arg. now rewrite lookup_delete_ne. Qed.

Lemma arg_delete_same (args : gmap string JsValue) (key : string) :
  arg (base.delete key args) key = JUndefined.
Proof. unfold arg. now rewrite lookup_delete_eq. Qed.

(** X10: A [limit] of 0 is no limit: [read] gives what it gives without the
    key. *)
Theorem read_limit_zero (args : gmap string JsValue) (w : World) :
  arg args "limit" = JNum (Int 0) ->
  read_tool args w = read_tool (base.delete "limit" args) w.
Proof.
  intros Hlim. unfold read_tool, bind, getPath.
  rewrite (arg_delete_same args "limit").
  rewrite !(arg_delete_other args "limit") by discriminate.
  rewrite Hlim. reflexivity.
Qed.

(** X11: A negative offset [-k] selects the last [k] lines, and numbers them
    from [-k + 1] up to 0. *)
Theorem read_negative_offset (args : gmap string JsValue) (w : World) (path : JsValue)
        (text : string) (k : Z) :
  getPath args w = (w, Return path) ->
  Bun_file_text w path = inr text ->
  arg args "offset" = JNum (Int (- k)) ->
  (0 < k <= Z.of_nat (length (Str.split LF text)))%Z ->
  arg args "limit" = JUndefined ->
  read_tool args w
  = (w, Return (Str.join LF
                  (imap (numbered_from (- k))
                        (skipn (length (Str.split LF text) - Z.to_nat k)
                               (Str.split LF text))))).
Proof.
  intros Hpath Htext Hoff Hk Hlim. unfold read_tool, bind, observe, ret.
  rewrite Hpath, Htext, Hoff, Hlim. cbn [js_nullish ToBoolean].
  rewrite (Array_slice_last _ k Hk). reflexivity.
Qed.

End ReadMore.

(** ** [edit] *)

Section EditMore.
Context `{Runtime}.

Lemma GetSubstitution_plain (before matched after template : string) :
  mentions DOLLAR template = false ->
  GetSubstitution before matched after template = template.
Proof.
  induction template as [|c tl IH]; [reflexivity|]. cbn [mentions GetSubstitution].
  intros Hm. apply orb_false_iff in Hm as [Hc Htl].
  rewrite Ascii.eqb_sym in Hc. change "$"%char with DOLLAR. rewrite Hc.
  now rewrite (IH Htl).
Qed.

Lemma no_occurrence (old text : string) :
  old <> "" -> occurrences old text = 0 -> Str.cut old text = None.
Proof.
  intros Hne Hocc. pose proof (cut_occurrences old text Hne) as Hcut.
  destruct (Str.cut old text) as [[a b]|]; [lia | reflexivity].
Qed.

Lemma edit_prelude (args : gmap string JsValue) (w : World) (path : JsValue)
      (text : string) :
  getPath args w = (w, Return path) ->
  Bun_file_text w path = inr text ->
  edit_tool args w
  = if negb (Str.includes text (ToString (arg args "old")))
    then (w, Return "error: old_string not found")
    else if negb (ToBoolean (arg args "all"))
            && (1 <? Z.of_nat (length (String_split text (arg args "old"))) - 1)%Z
         then (w, Return ("error: old_string appears "
                            ++ Number_toString
                                 (Int (Z.of_nat (length (String_split text (arg args "old"))) - 1))
                            ++ " times, use all=true")%string)
         else writes w path
                (if ToBoolean (arg args "all")
                 then String_replaceAll text (ToString (arg args "old"))
                        (ToString (arg args "new"))
                 else String_replace text (ToString (arg args "old"))
                        (ToString (arg args "new"))).
Proof.
  intros Hpath Htext. unfold edit_tool, bind, observe, perform, ret, writes.
  rewrite Hpath, Htext.
  destruct (negb (Str.includes text (ToString (arg args "old")))); [reflexivity|].
  destruct (negb (ToBoolean (arg args "all")) && _); [reflexivity|].
  rewrite Hpath. destruct (Bun_write w path _) as [w' [e|]]; reflexivity.
Qed.

(** X12: [edit] on a file in which [old] does not occur reports it and leaves
    the world as it found it, with or without [all]. *)
Theorem edit_absent_old (args : gmap string JsValue) (w : World) (path : JsValue)
        (text old : string) :
  getPath args w = (w, Return path) ->
  Bun_file_text w path = inr text ->
  arg args "old" = JStr old -> old <> "" ->
  occurrences old text = 0 ->
  edit_tool args w = (w, Return "error: old_string not found").
Proof.
  intros Hpath Htext Hold Hne Hocc. rewrite (edit_prelude args w path text Hpath Htext).
  rewrite Hold. cbn [ToString]. unfold Str.includes.
  now rewrite (no_occurrence old text Hne Hocc).
Qed.

(** X13: [edit] without [all] on a file in which [old] occurs once writes the
    text with that occurrence replaced by [new], when [new] holds no
    dollar sign. *)
Theorem edit_single_occurrence (args : gmap string JsValue) (w : World) (path : JsValue)
        (text old new : string) :
  getPath args w = (w, Return path) ->
  Bun_file_text w path = inr text ->
  arg args "old" = JStr old -> old <> "" ->
  arg args "new" = JStr new -> mentions DOLLAR new = false ->
  occurrences old text = 1 ->
  ToBoolean (arg args "all") = false ->
  exists before after,
    text = (before ++ old ++ after)%string
    /\ occurrences old after = 0
    /\ edit_tool args w = writes w path (before ++ new ++ after).
Proof.
  intros Hpath Htext Hold Hne Hnew Hplain Hocc Hall.
  pose proof (cut_occurrences old text Hne) as Hcut.
  destruct (Str.cut old text) as [[before after]|] eqn:Hc; [|lia].
  exists before, after. split; [now apply cut_Some|]. split; [lia|].
  rewrite (edit_prelude args w path text Hpath Htext), Hold, Hnew, Hall.
  cbn [ToString String_split negb andb]. unfold Str.includes. rewrite Hc. cbn [negb].
  rewrite (split_counts_occurrences old text Hne), Hocc. cbn.
  unfold String_replace. rewrite Hc. now rewrite GetSubstitution_plain.
Qed.

Lemma split_fuel_nonempty (n : nat) (sep s : string) : Str.split_fuel n sep s <> [].
Proof.
  destruct n; [discriminate|]. rewrite split_fuel_S.
  destruct (Str.cut sep s) as [[a b]|]; discriminate.
Qed.

Lemma replaceAll_fuel_join (n : nat) (old new before s : string) :
  mentions DOLLAR new = false ->
  replaceAll_fuel n old new before s = Str.join new (Str.split_fuel n old s).
Proof.
  intros Hplain. revert before s. induction n as [|n IH]; intros before s; [reflexivity|].
  rewrite split_fuel_S. cbn [replaceAll_fuel].
  destruct (Str.cut old s) as [[a b]|]; [|reflexivity].
  rewrite join_cons by apply split_fuel_nonempty.
  now rewrite GetSubstitution_plain, IH.
Qed.

(** X14: [edit] with [all] writes the pieces of the text between the
    occurrences of [old], joined by [new], when [new] holds no dollar
    sign. *)
Theorem edit_all_occurrences (args : gmap string JsValue) (w : World) (path : JsValue)
        (text old new : string) :
  getPath args w = (w, Return path) ->
  Bun_file_text w path = inr text ->
  arg args "old" = JStr old -> old <> "" ->
  arg args "new" = JStr new -> mentions DOLLAR new = false ->
  0 < occurrences old text ->
  ToBoolean (arg args "all") = true ->
  edit_tool args w = writes w path (Str.join new (Str.split old text))
  /\ length (Str.split old text) = S (occurrences old text).
Proof.
  intros Hpath Htext Hold Hne Hnew Hplain Hocc Hall.
  split; [|now apply split_counts_occurrences].
  rewrite (edit_prelude args w path text Hpath Htext), Hold, Hnew, Hall.
  cbn [ToString negb andb]. rewrite (occurs_includes old text Hne Hocc). cbn [negb].
  unfold String_replaceAll, Str.split. destruct old as [|c old]; [congruence|].
  now rewrite replaceAll_fuel_join.
Qed.

(** X15: The replacement is a pattern: with [new] set to the two characters
    dollar and ampersand, [edit] puts the match back and writes the text it
    read. *)
Theorem edit_dollar_ampersand (args : gmap string JsValue) (w : World) (path : JsValue)
        (text old : string) :
  getPath args w = (w, Return path) ->
  Bun_file_text w path = inr text ->
  arg args "old" = JStr old -> old <> "" ->
  arg args "new" = JStr "$&" ->
  occurrences old text = 1 ->
  ToBoolean (arg args "all") = false ->
  edit_tool args w = writes w path text.
Proof.
  intros Hpath Htext Hold Hne Hnew Hocc Hall.
  pose proof (cut_occurrences old text Hne) as Hcut.
  destruct (Str.cut old text) as [[before after]|] eqn:Hc; [|lia].
  rewrite (edit_prelude args w path text Hpath Htext), Hold, Hnew, Hall.
  cbn [ToString String_split negb andb]. unfold Str.includes. rewrite Hc. cbn [negb].
  rewrite (split_counts_occurrences old text Hne), Hocc. cbn.
  unfold String_replace. rewrite Hc. cbn [GetSubstitution Ascii.eqb Bool.eqb].
  cbn. rewrite append_nil_r. now rewrite <- (cut_Some old text before after Hc).
Qed.

Lemma chars_length (s : string) : length (Str.chars s) = String.length s.
Proof. induction s as [|c s IH]; cbn; congruence. Qed.

(** X16: An empty [old] is found in every file and counts one less than the
    characters of the text: without [all], a file of three characters or
    more is refused. *)
Theorem edit_empty_old (args : gmap string JsValue) (w : World) (path : JsValue)
        (text : string) :
  getPath args w = (w, Return path) ->
  Bun_file_text w path = inr text ->
  arg args "old" = JStr "" ->
  ToBoolean (arg args "all") = false ->
  3 <= String.length text ->
  edit_tool args w
  = (w, Return ("error: old_string appears "
                  ++ Number_toString (Int (Z.of_nat (String.length text) - 1))
                  ++ " times, use all=true")%string).
Proof.
  intros Hpath Htext Hold Hall Hlen.
  rewrite (edit_prelude args w path text Hpath Htext), Hold, Hall.
  cbn [ToString String_split negb andb Str.split]. rewrite chars_length.
  replace (Str.includes text "") with true by (unfold Str.includes; now destruct text).
  cbn [negb]. replace (1 <? Z.of_nat (String.length text) - 1)%Z with true
    by (symmetry; apply Z.ltb_lt; lia).
  reflexivity.
Qed.

End EditMore.

(** ** Ignored paths *)

Section IgnoreMore.

Lemma includes_app (before sub after : string) :
  Str.includes (before ++ sub ++ after) sub = true.
Proof.
  unfold Str.includes. induction before as [|c before IH].
  - rewrite append_nil_l. destruct (sub ++ after)%string as [|d rest] eqn:Hs.
    + rewrite cut_nil. destruct sub; [reflexivity | discriminate].
    + rewrite cut_cons, <- Hs, prefix_append. reflexivity.
  - rewrite append_cons, cut_cons.
    destruct (String.prefix sub (String c (before ++ sub ++ after))); [reflexivity|].
    destruct (Str.cut sub (before ++ sub ++ after)) as [[a b]|]; [reflexivity | discriminate].
Qed.

Lemma includes_iff (s sub : string) :
  Str.includes s sub = true <-> exists before after, s = (before ++ sub ++ after)%string.
Proof.
  split.
  - unfold Str.includes. destruct (Str.cut sub s) as [[a b]|] eqn:Hcut; [|discriminate].
    intros _. exists a, b. now apply cut_Some.
  - intros (before & after & ->). apply includes_app.
Qed.

(** X17: A path is ignored exactly when one of the seven directory names stands
    in it between two slashes or between two backslashes.  The name at the
    very end of a path, with no separator after it, does not count. *)
Theorem shouldIgnore_segment (filepath : string) :
  shouldIgnore filepath = true
  <-> exists name, In name IGNORE_PATTERNS /\ has_segment filepath name.
Proof.
  unfold shouldIgnore, has_segment. rewrite existsb_exists. split.
  - intros (name & Hin & Hmatch). exists name. split; [exact Hin|].
    apply orb_true_iff in Hmatch as [Hm|Hm]; apply includes_iff in Hm as (a & b & ->).
    + exists a, b. left. now rewrite !append_assoc.
    + exists a, b. right. now rewrite !append_assoc.
  - intros (name & Hin & a & b & [-> | ->]); exists name; (split; [exact Hin|]);
      apply orb_true_iff; [left | right]; apply includes_iff; exists a, b;
      now rewrite !append_assoc.
Qed.

End IgnoreMore.

(** ** [glob] *)

Section GlobMore.
Context `{Runtime}.

Lemma insert_by_mtime_perm (x : string * Z) (l : list (string * Z)) :
  Permutation (insert_by_mtime x l) (x :: l).
Proof.
  induction l as [|y l IH]; cbn; [reflexivity|].
  destruct (snd y <=? snd x)%Z; [reflexivity|].
  rewrite IH. apply perm_swap.
Qed.

Lemma sort_by_mtime_perm (l : list (string * Z)) : Permutation (sort_by_mtime l) l.
Proof.
  induction l as [|x l IH]; cbn; [reflexivity|].
  rewrite insert_by_mtime_perm. now apply perm_skip.
Qed.

Lemma insert_by_mtime_sorted (x : string * Z) (l : list (string * Z)) :
  StronglySorted newer_first l -> StronglySorted newer_first (insert_by_mtime x l).
Proof.
  induction 1 as [|y l Hsorted IH Hall]; cbn; [repeat constructor|].
  destruct (snd y <=? snd x)%Z eqn:Hle.
  - apply Z.leb_le in Hle. constructor; [now constructor|].
    constructor; [exact Hle|].
    eapply List.Forall_impl; [|exact Hall]. unfold newer_first. intros z Hz. lia.
  - apply Z.leb_gt in Hle. constructor; [exact IH|].
    apply List.Forall_forall. intros z Hz.
    apply (Permutation_in _ (insert_by_mtime_perm x l)) in Hz.
    destruct Hz as [<-|Hz]; [unfold newer_first; lia|].
    now apply (proj1 (List.Forall_forall _ _) Hall).
Qed.

Lemma sort_by_mtime_sorted (l : list (string * Z)) :
  StronglySorted newer_first (sort_by_mtime l).
Proof.
  induction l as [|x l IH]; cbn; [constructor | now apply insert_by_mtime_sorted].
Qed.

(** X18: When the scan ends without a fault, [glob] lists the paths found that
    are not ignored, each as often as the scan yielded it, newest first (a
    file that cannot be examined counts as oldest), one per line, and
    [none] when there is nothing to list; it leaves the world as it is. *)
Theorem glob_newest_first (args : gmap string JsValue) (w : World) (found : list string) :
  Glob_scan w (arg args "pattern") (js_nullish (arg args "path") (JStr ".")) = (found, None) ->
  exists files,
    glob_tool args w = (w, Return (or_else (Str.join LF (map fst files)) "none"))
    /\ Permutation files
         (map (glob_entry w) (List.filter (fun p => negb (shouldIgnore p)) found))
    /\ StronglySorted newer_first files
    /\ Forall (fun p => shouldIgnore p = false /\ In p found) (map fst files).
Proof.
  intros Hscan.
  exists (sort_by_mtime
            (map (glob_entry w) (List.filter (fun p => negb (shouldIgnore p)) found))).
  split; [unfold glob_tool; now rewrite Hscan|].
  split; [apply sort_by_mtime_perm|]. split; [apply sort_by_mtime_sorted|].
  apply List.Forall_forall. intros p Hin.
  apply (Permutation_in _ (Permutation_map fst (sort_by_mtime_perm _))) in Hin.
  rewrite map_map in Hin.
  apply in_map_iff in Hin as (q & <- & Hq). apply filter_In in Hq as [Hfound Hkeep].
  apply negb_true_iff in Hkeep. unfold glob_entry.
  destruct (Bun_file_stat w q) as [e|[st|]]; cbn; now split.
Qed.

End GlobMore.

(** ** [grep] *)

Section GrepMore.
Context `{Runtime}.
Variable cfg : Config.
Variable n : Z.
Hypothesis Hlimit : GREP_LIMIT cfg = Int n.
Hypothesis Hpositive : (1 <= n)%Z.





End GrepMore.

(** ** The tools that catch their own faults *)

Section CatchMore.
Context `{Runtime}.

Lemma error_message_returns (e : JsError) (w : World) :
  exists w' text, error_message tt e w = (w', Return text).
Proof. now eexists _, _. Qed.

(** X20: [list], [delete], [move] and [copy] never throw: whatever the
    arguments and the world, each returns a text; [list] also leaves the
    world as it found it. *)
Theorem fs_tools_never_throw (args : gmap string JsValue) (w : World) :
  (exists text, list_tool args w = (w, Return text))
  /\ (exists w' text, delete_tool args w = (w', Return text))
  /\ (exists w' text, move_tool args w = (w', Return text))
  /\ (exists w' text, copy_tool args w = (w', Return text)).
Proof.
  split; [|split; [|split]];
    try (apply try_catch_returns; intros e w1; apply error_message_returns).
  unfold list_tool, try_catch, bind, getPath, throw, ret, error_message.
  destruct (negb (ToBoolean (js_or (arg args "path") (arg args "file_path"))));
    [now eexists|].
  destruct (listDir _ _ _ _) as [results|e]; now eexists.
Qed.

End CatchMore.

(** ** The two channels of [exec] *)

Section ChannelsMore.
Context `{Runtime}.

Lemma decoded_filter (ch : Channel) (events : list ReadEvent) :
  forall r, decoded ch (List.filter (on_channel ch) events) r = decoded ch events r.
Proof.
  induction events as [|e events IH]; intros r; [reflexivity|].
  destruct e as [c value|c]; cbn [List.filter on_channel decoded];
    destruct (channel_eqb ch c) eqn:Hc; cbn [decoded]; rewrite ?Hc; try apply IH.
  - destruct (ended r); [apply IH|].
    destruct (TextDecoder_decode (decoder r) value) as [d text]. now rewrite IH.
Qed.

(** X21: What the transcript holds for one channel does not depend on what the
    other channel delivers, nor on when. *)
Theorem channels_independent (ch : Channel) (events : list ReadEvent) :
  channel_view ch (transcript events)
  = channel_view ch (transcript (List.filter (on_channel ch) events)).
Proof.
  unfold transcript. rewrite !view_readStreams. now rewrite decoded_filter.
Qed.

Lemma decoded_ended (ch : Channel) (events : list ReadEvent) :
  forall r, ended r = true -> decoded ch events r = [].
Proof.
  induction events as [|e events IH]; intros r Hr; [reflexivity|].
  destruct e as [c value|c]; cbn [decoded]; destruct (channel_eqb ch c).
  - rewrite Hr. now apply IH.
  - now apply IH.
  - now apply IH.
  - now apply IH.
Qed.

Lemma decoded_until_failure (ch : Channel) (before after : list ReadEvent) :
  forall r, decoded ch (before ++ Failed ch :: after) r = decoded ch before r.
Proof.
  induction before as [|e before IH]; intros r.
  - cbn [app decoded]. replace (channel_eqb ch ch) with true by now destruct ch.
    now apply decoded_ended.
  - destruct e as [c value|c]; cbn [app decoded]; destruct (channel_eqb ch c); try apply IH.
    destruct (ended r); [apply IH|].
    destruct (TextDecoder_decode (decoder r) value) as [d text]. now rewrite IH.
Qed.

(** X22: A rejected read ends its channel: nothing that the channel delivers
    afterwards enters the transcript. *)
Theorem failed_read_ends_channel (ch : Channel) (before after : list ReadEvent) :
  channel_view ch (transcript (before ++ Failed ch :: after))
  = channel_view ch (transcript before).
Proof.
  unfold transcript. rewrite !view_readStreams. now rewrite decoded_until_failure.
Qed.

End ChannelsMore.

(** ** Names that are no tools *)

Section NamesMore.
Context `{Runtime}.
Variable cfg : Config.

(** X23: A name that is no key of [TOOLS] never reaches a handler and leaves
    the world alone.  It is reported as unknown, unless it names a property
    that every object inherits ([toString], [constructor], ...): then the
    lookup finds something that is no tool, and the text is the rendering
    of the [TypeError] raised by calling it. *)
Theorem runTool_no_such_key (name : string) (args : gmap string JsValue) (w : World) :
  ~ In name (map fst (TOOLS cfg)) ->
  runTool cfg name args w
  = (w, Return (if existsb (String.eqb name) Object_prototype
                then "error: " ++ Error_toString (TypeError not_a_function)
                else "error: unknown tool " ++ name)%string).
Proof.
  intros Hnot.
  assert (Hown : own_property (TOOLS cfg) name = None).
  { induction (TOOLS cfg) as [|[key tool] table IH]; [reflexivity|]. cbn in *.
    destruct (String.eqb key name) eqn:Hk.
    - apply String.eqb_eq in Hk. tauto.
    - apply IH. tauto. }
  unfold runTool, try_catch, TOOLS_get. rewrite Hown.
  destruct (existsb (String.eqb name) Object_prototype); reflexivity.
Qed.

End NamesMore.

(** ** What the transport is handed *)

Section CallsMore.
Context `{Runtime}.
Variable cfg : Config.

Lemma ends_with_user_push (conversation : list Message) (content : Content) :
  ends_with_user (conversation ++ [mkMessage "user" content]).
Proof. eexists. split; [apply last_snoc | reflexivity]. Qed.

Lemma ready_step (s : State) (e : Event) : ready_to_call s -> ready_to_call (step cfg s e).
Proof.
  intros [Htest Hsent]. unfold step.
  destruct (phase s) eqn:Hp; destruct e as [line| | |r|];
    try (split; [cbn; rewrite ?Hp; try discriminate; exact Htest | exact Hsent]).
  - unfold on_line. destruct (_ || _); [split; [discriminate | exact Hsent]|].
    destruct (String.eqb _ "/c"); [split; [discriminate | exact Hsent]|].
    destruct (negb _); [split; [rewrite Hp; discriminate | exact Hsent]|].
    split; [intros _; apply ends_with_user_push | exact Hsent].
  - unfold on_loop_test. destruct (stopRequested s).
    + split; [discriminate | exact Hsent].
    + split; [discriminate|]. constructor; [now apply Htest | exact Hsent].
  - destruct r as [response|err]; [|split; [discriminate | exact Hsent]].
    cbn. destruct (response_usage response); split; try discriminate; exact Hsent.
  - unfold on_block. destruct rest as [|block rest'].
    + destruct toolResults as [|r trs]; [split; [discriminate | exact Hsent]|].
      split; [intros _; apply ends_with_user_push | exact Hsent].
    + destruct (dispatched block); [|split; [discriminate | exact Hsent]].
      destruct (block_name block), (block_input block), (block_id block);
        try (split; [discriminate | exact Hsent]).
      destruct (runTool _ _ _ _) as [w [result|err]]; split; try discriminate; exact Hsent.
Qed.

(** X7: Every conversation the transport is handed ends with a user turn: the
    utterance that started the request or the results of the tools just
    run. *)
Theorem transport_sees_user_turn_last (w : World) (events : list Event) :
  Forall ends_with_user (sent (run cfg (initial w) events)).
Proof.
  assert (Hready : forall s, ready_to_call s -> ready_to_call (run cfg s events)).
  { induction events as [|e events IH]; intros s Hs; [exact Hs|].
    apply (IH (step cfg s e)). now apply ready_step. }
  apply (Hready (initial w)). split; [discriminate | constructor].
Qed.

End CallsMore.

(** ** The status line of [exec] *)

Section StatusMore.
Context `{Runtime}.
Variable cfg : Config.

Lemma timeoutMs_clamp (args : gmap string JsValue) (t : Z) :
  arg args "timeout" = JNum (Int t) -> timeoutMs args = Int (clamp t).
Proof.
  intros Ht. unfold timeoutMs, Math_max, clamp. rewrite Ht. cbn.
  destruct (t <=? 1000)%Z eqn:E1; cbn.
  - apply Z.leb_le in E1. f_equal. lia.
  - apply Z.leb_gt in E1. destruct (t <=? 300000)%Z eqn:E2.
    + apply Z.leb_le in E2. f_equal. lia.
    + apply Z.leb_gt in E2. f_equal. lia.
Qed.

Lemma Number_toString_small (z : Z) :
  (Z.abs z < 10 ^ 21)%Z -> Number_toString (Int z) = Z_toString z.
Proof. intros Hz. unfold Number_toString. apply Z.ltb_lt in Hz. now rewrite Hz. Qed.

(** X24: With an integer [timeout] of [t], a run the timer ended closes with
    the line [[TIMEOUT after <bound>ms]], where the bound is [t] brought
    into [1000, 300000] and written in decimal; and the result opens with
    the transcript, or with [(no output)]. *)
Theorem exec_timeout_line (args : gmap string JsValue) (w w' : World) (run : ProcRun) (t : Z) :
  arg args "timeout" = JNum (Int t) ->
  Bun_spawn w (map JStr (SHELL cfg) ++ [arg args "command"]) (Int (clamp t)) = (w', inr run) ->
  timer_fired run = true ->
  (1000 <= clamp t <= 300000)%Z
  /\ exec_tool cfg args w
     = (w', Return (or_else (Str.join LF (transcript (reads run))) "(no output)"
                      ++ LF ++ "[TIMEOUT after " ++ Z_toString (clamp t) ++ "ms]")%string).
Proof.
  intros Ht Hspawn Hfired. split; [unfold clamp; lia|].
  unfold exec_tool, bind, ret. rewrite (timeoutMs_clamp args t Ht), Hspawn.
  unfold exec_result. rewrite Hfired.
  rewrite Number_toString_small by (unfold clamp; lia). reflexivity.
Qed.

End StatusMore.

(** ** The further properties at work *)

Lemma request_list_files : request "list files".
Proof. repeat split; intros Heq; vm_compute in Heq; discriminate Heq. Qed.

Lemma request_again : request "again".
Proof. repeat split; intros Heq; vm_compute in Heq; discriminate Heq. Qed.

Lemma quit_is_final_witness :
  run Sim.cfg sample_start [Line " exit "; Line "list files"; Resume; SIGINT]
  = set_phase Exited sample_start.
Proof.
  apply (quit_is_final (H := Sim.runtime) Sim.cfg sample_start " exit "
           [Line "list files"; Resume; SIGINT] eq_refl).
  right. reflexivity.
Defined.

Lemma transport_fault_keeps_turns_witness :
  messages (run Sim.cfg sample_start
              [Line "list files"; Resume; Settled (Throw (Error "API error (500): overloaded"))])
  = [] ++ [user_turn "list files"].
Proof.
  destruct (transport_fault_keeps_turns (H := Sim.runtime) Sim.cfg sample_start
              "list files" "again" (Error "API error (500): overloaded")
              eq_refl request_list_files request_again) as (_ & Hmessages & _).
  exact Hmessages.
Defined.

Lemma stale_interrupt_discarded_witness :
  phase (run Sim.cfg sample_start [SIGINT; Line "list files"; Resume]) = AwaitingAPI.
Proof.
  destruct (stale_interrupt_discarded (H := Sim.runtime) Sim.cfg sample_start
              "list files" eq_refl request_list_files) as (Hphase & _).
  exact Hphase.
Defined.

Lemma conversation_append_only_witness :
  exists suffix,
    messages (run Sim.cfg sample_waiting [Settled (Return sample_answer); Resume; Resume])
    = messages sample_waiting ++ suffix.
Proof.
  apply (conversation_append_only (H := Sim.runtime) Sim.cfg sample_waiting).
  repeat constructor; intros line Heq; discriminate Heq.
Defined.

Lemma round_runs_tools_in_order_witness :
  messages (run Sim.cfg sample_waiting
              (Settled (Return sample_response) :: repeat Resume 4))
  = messages sample_waiting ++ round_turns (blocks_of sample_response) sample_results.
Proof.
  destruct (round_runs_tools_in_order (H := Sim.runtime) Sim.cfg sample_waiting
              sample_response Sim.empty sample_results eq_refl eq_refl)
    as (_ & Hmessages & _).
  exact Hmessages.
Defined.

Lemma response_without_invocations_ends_request_witness :
  phase (run Sim.cfg sample_waiting (Settled (Return sample_answer) :: repeat Resume 2)) = Idle.
Proof.
  destruct (response_without_invocations_ends_request (H := Sim.runtime) Sim.cfg
              sample_waiting sample_answer eq_refl
              ltac:(repeat constructor)) as (Hphase & _).
  exact Hphase.
Defined.

Lemma missing_path_reported_witness :
  runTool (H := Sim.runtime) Sim.cfg "write" sample_content_only Sim.empty
  = (Sim.empty, Return "error: Error: path parameter is required").
Proof.
  destruct (missing_path_reported (H := Sim.runtime) Sim.cfg sample_content_only
              Sim.empty eq_refl eq_refl) as (_ & Hwrite & _).
  exact Hwrite.
Defined.

Lemma read_window_witness :
  read_tool (H := Sim.runtime) sample_window sample_three_lines
  = (sample_three_lines, Return "   2| y").
Proof.
  destruct (read_window (H := Sim.runtime) sample_window sample_three_lines (JStr "a.txt")
              ("x" ++ LF ++ "y" ++ LF ++ "z") 1 1
              eq_refl eq_refl eq_refl ltac:(lia) eq_refl ltac:(lia)) as (Hread & _).
  rewrite Hread. vm_compute. reflexivity.
Defined.

Lemma read_limit_zero_witness :
  read_tool (H := Sim.runtime) sample_limit_zero sample_three_lines
  = (sample_three_lines, Return ("   1| x" ++ LF ++ "   2| y" ++ LF ++ "   3| z")%string).
Proof.
  rewrite (read_limit_zero (H := Sim.runtime) sample_limit_zero sample_three_lines eq_refl).
  vm_compute. reflexivity.
Defined.

Lemma read_negative_offset_witness :
  read_tool (H := Sim.runtime) sample_last_two sample_three_lines
  = (sample_three_lines, Return ("  -1| y" ++ LF ++ "   0| z")%string).
Proof.
  rewrite (read_negative_offset (H := Sim.runtime) sample_last_two sample_three_lines
             (JStr "a.txt") ("x" ++ LF ++ "y" ++ LF ++ "z") 2
             eq_refl eq_refl eq_refl ltac:(vm_compute; split; [reflexivity | discriminate]) eq_refl).
  vm_compute. reflexivity.
Defined.

Lemma edit_absent_old_witness :
  edit_tool (H := Sim.runtime) (sample_edit "q" "r") (Sim.one_file "abc")
  = (Sim.one_file "abc", Return "error: old_string not found").
Proof.
  apply (edit_absent_old (H := Sim.runtime) (sample_edit "q" "r") (Sim.one_file "abc")
           (JStr "a.txt") "abc" "q" eq_refl eq_refl eq_refl ltac:(discriminate) eq_refl).
Defined.

Lemma edit_single_occurrence_witness :
  exists before after,
    "abc" = (before ++ "b" ++ after)%string
    /\ occurrences "b" after = 0
    /\ edit_tool (H := Sim.runtime) (sample_edit "b" "B") (Sim.one_file "abc")
       = writes (H := Sim.runtime) (Sim.one_file "abc") (JStr "a.txt")
                (before ++ "B" ++ after).
Proof.
  apply (edit_single_occurrence (H := Sim.runtime) (sample_edit "b" "B") (Sim.one_file "abc")
           (JStr "a.txt") "abc" "b" "B"
           eq_refl eq_refl eq_refl ltac:(discriminate) eq_refl eq_refl eq_refl eq_refl).
Defined.

Lemma edit_all_occurrences_witness :
  edit_tool (H := Sim.runtime) (sample_edit_all "x" "yy") (Sim.one_file "x-x-x")
  = (Sim.one_file "yy-yy-yy", Return "ok").
Proof.
  destruct (edit_all_occurrences (H := Sim.runtime) (sample_edit_all "x" "yy")
              (Sim.one_file "x-x-x") (JStr "a.txt") "x-x-x" "x" "yy"
              eq_refl eq_refl eq_refl ltac:(discriminate) eq_refl eq_refl
              ltac:(vm_compute; lia) eq_refl) as [Hedit _].
  rewrite Hedit. vm_compute. reflexivity.
Defined.

Lemma edit_dollar_ampersand_witness :
  edit_tool (H := Sim.runtime) (sample_edit "b" "$&") (Sim.one_file "abc")
  = (Sim.one_file "abc", Return "ok").
Proof.
  rewrite (edit_dollar_ampersand (H := Sim.runtime) (sample_edit "b" "$&")
             (Sim.one_file "abc") (JStr "a.txt") "abc" "b"
             eq_refl eq_refl eq_refl ltac:(discriminate) eq_refl eq_refl eq_refl).
  vm_compute. reflexivity.
Defined.

Lemma edit_empty_old_witness :
  edit_tool (H := Sim.runtime) (sample_edit "" "r") (Sim.one_file "abcd")
  = (Sim.one_file "abcd", Return "error: old_string appears 3 times, use all=true").
Proof.
  apply (edit_empty_old (H := Sim.runtime) (sample_edit "" "r") (Sim.one_file "abcd")
           (JStr "a.txt") "abcd" eq_refl eq_refl eq_refl eq_refl).
  cbn. lia.
Defined.

Lemma glob_newest_first_witness :
  exists files,
    glob_tool (H := Sim.runtime) sample_star sample_two_files
    = (sample_two_files, Return (or_else (Str.join LF (map fst files)) "none"))
    /\ Permutation files
         (map (glob_entry (H := Sim.runtime) sample_two_files)
              (List.filter (fun p => negb (shouldIgnore p)) ["a.txt"; "b.txt"]))
    /\ StronglySorted newer_first files
    /\ Forall (fun p => shouldIgnore p = false /\ In p ["a.txt"; "b.txt"]) (map fst files).
Proof.
  apply (glob_newest_first (H := Sim.runtime) sample_star sample_two_files
           ["a.txt"; "b.txt"]).
  vm_compute. reflexivity.
Defined.


Lemma runTool_no_such_key_witness :
  runTool (H := Sim.runtime) Sim.cfg "constructor" sample_no_args Sim.empty
  = (Sim.empty, Return "error: TypeError: TOOLS[name][2] is not a function").
Proof.
  rewrite (runTool_no_such_key (H := Sim.runtime) Sim.cfg "constructor" sample_no_args Sim.empty).
  - reflexivity.
  - cbn. intuition discriminate.
Defined.

Lemma exec_timeout_line_witness :
  exec_tool (H := Sim.runtime) Sim.cfg sample_sleep_args sample_sleep
  = (sample_sleep, Return ("(no output)" ++ LF ++ "[TIMEOUT after 1000ms]")%string).
Proof.
  destruct (exec_timeout_line (H := Sim.runtime) Sim.cfg sample_sleep_args sample_sleep
              sample_sleep (mkProcRun [] true None) 50 eq_refl eq_refl eq_refl)
    as [_ Hexec].
  rewrite Hexec. vm_compute. reflexivity.
Defined.
